(** * The sqlite binding of grumble (pkg/sqlite/sqlite.go)

    A shallow embedding of the Go wrapper around the SQLite C interface.
    The C library is an external collaborator: every C function the
    wrapper calls is a constructor of [call], an [Engine] answers the
    calls, and the wrapper's functions run in a state monad over a
    [World] that holds the engine, the Go heap of [Conn] structs and the
    log of everything the wrapper did to the outside.

    Integers are kept in [Z]: the wrapper only converts between Go's [int]
    and C's [int], which have the same width in the Go release the code
    is written for, and does no arithmetic on them beyond a length or an
    index plus one. *)

From Stdlib Require Import ZArith Ascii String List Lia.
From stdpp Require Import base relations gmap list strings pretty.

Local Open Scope string_scope.
Local Open Scope list_scope.
Local Open Scope Z_scope.

(** ** Error taxonomy *)

(** [errText]: the Go map from status code to canonical text. *)
Definition errText : gmap Z string :=
  list_to_map
    [ (1, "SQL error or missing database");
      (2, "Internal logic error in SQLite");
      (3, "Access permission denied");
      (4, "Callback routine requested an abort");
      (5, "The database file is locked");
      (6, "A table in the database is locked");
      (7, "A malloc() failed");
      (8, "Attempt to write a readonly database");
      (9, "Operation terminated by sqlite3_interrupt()*/");
      (10, "Some kind of disk I/O error occurred");
      (11, "The database disk image is malformed");
      (12, "NOT USED. Table or record not found");
      (13, "Insertion failed because database is full");
      (14, "Unable to open the database file");
      (15, "NOT USED. Database lock protocol error");
      (16, "Database is empty");
      (17, "The database schema changed");
      (18, "String or BLOB exceeds size limit");
      (19, "Abort due to constraint violation");
      (20, "Data type mismatch");
      (21, "Library used incorrectly");
      (22, "Uses OS features not supported on host");
      (23, "Authorization denied");
      (24, "Auxiliary database format error");
      (25, "2nd parameter to sqlite3_bind out of range");
      (26, "File opened that is not a database file");
      (100, "sqlite3_step() has another row ready");
      (101, "sqlite3_step() has finished executing") ].

(** [Errno.String]: a missing key reads as the empty string in Go, and the
    empty string selects the fallback. *)
Definition Errno_String (e : Z) : string :=
  let s := default "" (errText !! e) in
  if String.eqb s "" then "errno " +:+ pretty e else s.

(** An [os.Error] value that is not nil.  The wrapper produces three kinds:
    [os.NewError msg], an [Errno] converted to the interface, and
    [os.EINVAL]. *)
Inductive error : Type :=
| NewError (msg : string)
| Errno (e : Z)
| EINVAL.

(** [os.Error]: nil is [None]. *)
Definition os_Error : Type := option error.

(** The [String] method of the [os.Error] interface. *)
Definition error_String (e : error) : string :=
  match e with
  | NewError msg => msg
  | Errno n => Errno_String n
  | EINVAL => "invalid argument"
  end.

Definition ErrBusy : os_Error := Some (Errno 5).
Definition ErrLocked : os_Error := Some (Errno 6).
Definition ErrMisuse : os_Error := Some (Errno 21).
Definition Row : Z := 100.
Definition Done : Z := 101.

(** ** Go values passed through [interface{}] *)

(** The dynamic types [Stmt.Exec] tells apart are [[]byte] and [bool]; every
    other value only reaches [fmt.Sprint].  Integers, strings and nil are
    kept as such; a value of any further type is represented by the text
    [fmt] prints for it. *)
Inductive value : Type :=
| VBytes (v : list Byte.byte)
| VBool (v : bool)
| VInt (v : Z)
| VString (v : string)
| VNil
| VOther (printed : string).

Definition join_space (l : list string) : string :=
  match l with
  | [] => ""
  | x :: r => fold_left (fun acc y => acc +:+ " " +:+ y) r x
  end.

(** The [%v] verb, which is also what [fmt.Sprint] prints for one operand. *)
Definition fmt_v (v : value) : string :=
  match v with
  | VBytes b => "[" +:+ join_space (map (fun x => pretty (Byte.to_N x)) b) +:+ "]"
  | VBool true => "true"
  | VBool false => "false"
  | VInt z => pretty z
  | VString s => s
  | VNil => "<nil>"
  | VOther s => s
  end.

Definition fmt_Sprint (v : value) : string := fmt_v v.

(** [%v] of a [[]interface{}]. *)
Definition fmt_v_slice (args : list value) : string :=
  "[" +:+ join_space (map fmt_v args) +:+ "]".

(** ** The boundary to the C library *)

(** A C pointer to an opaque engine object; [None] is NULL. *)
Definition ptr : Type := option N.

(** Every call the wrapper makes to the outside, indexed by the type of
    its answer.  A [void*] or [char*] argument is given by the bytes it
    points to; [CString] and [free] only manage that copy and are not
    recorded. *)
Inductive call : Type -> Type :=
| sqlite3_errmsg (db : ptr) : call string
| sqlite3_errcode (db : ptr) : call Z
| sqlite3_close (db : ptr) : call Z
| sqlite3_busy_timeout (db : ptr) (ms : Z) : call Z
| sqlite3_prepare_v2 (db : ptr) (zSql : string) (nByte : Z) : call (Z * ptr)
| sqlite3_reset (stmt : ptr) : call Z
| sqlite3_bind_parameter_count (stmt : ptr) : call Z
| my_bind_blob (stmt : ptr) (n : Z) (p : option (list Byte.byte)) (np : Z) : call Z
| my_bind_text (stmt : ptr) (n : Z) (p : string) (np : Z) : call Z
| sqlite3_step (stmt : ptr) : call Z
| sqlite3_column_count (stmt : ptr) : call Z
| sqlite3_column_bytes (stmt : ptr) (i : Z) : call Z
| sqlite3_column_blob (stmt : ptr) (i : Z) : call (option (list Byte.byte))
| sqlite3_finalize (stmt : ptr) : call Z
| sqlite3_backup_init (pDest : ptr) (zDestName : string)
    (pSource : ptr) (zSourceName : string) : call ptr
| sqlite3_backup_step (sb : ptr) (npage : Z) : call Z
| sqlite3_backup_remaining (sb : ptr) : call Z
| sqlite3_backup_pagecount (sb : ptr) : call Z
| sqlite3_backup_finish (sb : ptr) : call Z
| time_Nanoseconds : call Z.

(** An engine answers each call and moves to its next state. *)
Class Engine (E : Type) : Type :=
  respond : forall R : Type, call R -> E -> R * E.
Arguments respond {E _ R} _ _.

Record BackupStatus : Type := { Remaining : Z; PageCount : Z }.

(** What the wrapper does to the outside, in order. *)
Inductive event : Type :=
| Called {R : Type} (c : call R)
| Sent (ch : N) (st : BackupStatus)
| Slept (ns : Z).

(** ** Go structs *)

(** The address of a [Conn] on the Go heap; a [*Conn] is [option loc]. *)
Definition loc : Type := N.

Record Conn : Type := { Conn_db : ptr }.

Record Stmt : Type := {
  Stmt_c : option loc;
  Stmt_stmt : ptr;
  Stmt_err : os_Error;
  Stmt_t0 : Z;
  Stmt_sql : string;
  Stmt_args : string
}.

Record Backup : Type := {
  Backup_sb : ptr;
  Backup_dst : option loc;
  Backup_src : option loc
}.

Definition Stmt_set_args (s : Stmt) (a : string) : Stmt :=
  {| Stmt_c := Stmt_c s; Stmt_stmt := Stmt_stmt s; Stmt_err := Stmt_err s;
     Stmt_t0 := Stmt_t0 s; Stmt_sql := Stmt_sql s; Stmt_args := a |}.

Definition Stmt_set_err (s : Stmt) (e : os_Error) : Stmt :=
  {| Stmt_c := Stmt_c s; Stmt_stmt := Stmt_stmt s; Stmt_err := e;
     Stmt_t0 := Stmt_t0 s; Stmt_sql := Stmt_sql s; Stmt_args := Stmt_args s |}.

Definition Backup_set_sb (b : Backup) (p : ptr) : Backup :=
  {| Backup_sb := p; Backup_dst := Backup_dst b; Backup_src := Backup_src b |}.

(** The destinations [Stmt.Scan] tells apart by their dynamic type; any
    other destination is given by the name [reflect.Typeof] prints. *)
Inductive target : Type :=
| TBytes | TString | TBool | TInt | TInt64 | TFloat64
| TOther (typ : string).

(** The parsers of Go's [strconv], which [Stmt.Scan] calls: each gives
    the number or the text of its error.  [F] stands for [float64]. *)
Class Strconv (F : Type) : Type := {
  Atoi : string -> Z + string;
  Atoi64 : string -> Z + string;
  Atof64 : string -> F + string
}.

(** What [Stmt.Scan] stores through a destination. *)
Inductive stored (F : Type) : Type :=
| SBytes (v : list Byte.byte)
| SString (v : string)
| SBool (v : bool)
| SInt (v : Z)
| SInt64 (v : Z)
| SFloat64 (v : F).
Arguments SBytes {F} _.
Arguments SString {F} _.
Arguments SBool {F} _.
Arguments SInt {F} _.
Arguments SInt64 {F} _.
Arguments SFloat64 {F} _.

(** ** The world and the monad of the wrapper *)

Section Wrapper.
Context {E : Type} `{!Engine E}.

(** Every location of the heap holds a [Conn]: Go has no dangling
    pointers. *)
Record World : Type := {
  engine : E;
  conns : loc -> Conn;
  events : list event
}.

(** A function of the wrapper returns, or panics on a nil dereference. *)
Inductive outcome (A : Type) : Type :=
| Ret (a : A) (w : World)
| Panic (w : World).
Arguments Ret {A} _ _.
Arguments Panic {A} _.

Definition M (A : Type) : Type := World -> outcome A.

Definition ret {A : Type} (a : A) : M A := fun w => Ret a w.

Definition bind {A B : Type} (m : M A) (k : A -> M B) : M B :=
  fun w => match m w with
           | Ret a w' => k a w'
           | Panic w' => Panic w'
           end.

Definition panic {A : Type} : M A := fun w => Panic w.

Notation "x <- m ;; k" := (bind m (fun x => k))
  (at level 100, m at next level, right associativity).
Notation "m ;;; k" := (bind m (fun _ => k))
  (at level 100, right associativity).

(** A call into the C library: logged, then answered by the engine. *)
Definition C {R : Type} (c : call R) : M R :=
  fun w =>
    let (r, e') := respond c (engine w) in
    Ret r {| engine := e'; conns := conns w; events := events w ++ [Called c] |}.

(** The answer to a call made in [w], and the world it leaves. *)
Definition answer {R : Type} (c : call R) (w : World) : R :=
  fst (respond c (engine w)).

Definition after_call {R : Type} (c : call R) (w : World) : World :=
  {| engine := snd (respond c (engine w)); conns := conns w;
     events := events w ++ [Called c] |}.

Definition emit (ev : event) : M unit :=
  fun w => Ret tt {| engine := engine w; conns := conns w;
                     events := events w ++ [ev] |}.

(** [c.db] for a [c] that is not nil. *)
Definition load_db (l : loc) : M ptr := fun w => Ret (Conn_db (conns w l)) w.

Definition store_db (l : loc) (p : ptr) : M unit :=
  fun w => Ret tt {| engine := engine w;
                     conns := fun l' => if N.eqb l' l then {| Conn_db := p |}
                                        else conns w l';
                     events := events w |}.

(** [c == nil || c.db == nil], giving the handle when it is open. *)
Definition open_db (c : option loc) : M ptr :=
  match c with
  | None => ret None
  | Some l => load_db l
  end.

(** The engine handle behind a [*Conn]: NULL for a nil pointer and for a
    closed connection. *)
Definition Conn_handle (c : option loc) (w : World) : ptr :=
  match c with
  | None => None
  | Some l => Conn_db (conns w l)
  end.

(** ** Conn.error *)

Definition Conn_error (c : option loc) (rv : Z) : M os_Error :=
  d <- open_db c ;;
  match d with
  | None => ret (Some (NewError "nil sqlite database"))
  | Some h =>
      if rv =? 0 then ret None
      else if rv =? 21 then ret (Some (Errno rv))
      else msg <- C (sqlite3_errmsg (Some h)) ;;
           ret (Some (NewError (Errno_String rv +:+ ": " +:+ msg)))
  end.

(** ** Conn *)

Definition Conn_BusyTimeout (c : option loc) (ms : Z) : M os_Error :=
  match c with
  | None => panic
  | Some l =>
      d <- load_db l ;;
      rv <- C (sqlite3_busy_timeout d ms) ;;
      if rv =? 0 then ret None else ret (Some (Errno rv))
  end.

Definition Conn_Prepare (c : option loc) (cmd : string)
  : M (option Stmt * os_Error) :=
  d <- open_db c ;;
  match d with
  | None => ret (None, Some (NewError "nil sqlite database"))
  | Some h =>
      r <- C (sqlite3_prepare_v2 (Some h) cmd (Z.of_nat (String.length cmd) + 1)) ;;
      if negb (fst r =? 0) then
        e <- Conn_error c (fst r) ;; ret (None, e)
      else
        t <- C time_Nanoseconds ;;
        ret (Some {| Stmt_c := c; Stmt_stmt := snd r; Stmt_err := None;
                     Stmt_t0 := t; Stmt_sql := cmd; Stmt_args := "" |}, None)
  end.

Definition Conn_Close (c : option loc) : M os_Error :=
  d <- open_db c ;;
  match c, d with
  | Some l, Some h =>
      rv <- C (sqlite3_close (Some h)) ;;
      if negb (rv =? 0) then Conn_error c rv
      else store_db l None ;;; ret None
  | _, _ => ret (Some (NewError "nil sqlite database"))
  end.

(** ** Stmt *)

(** The body of the [range args] loop of [Stmt.Exec], from index [i] on. *)
Fixpoint Stmt_Exec_bind (s : Stmt) (i : Z) (args : list value) : M os_Error :=
  match args with
  | [] => ret None
  | VBytes v :: rest =>
      let p := if 0 <? Z.of_nat (length v) then Some v else None in
      rv <- C (my_bind_blob (Stmt_stmt s) (i + 1) p (Z.of_nat (length v))) ;;
      if negb (rv =? 0) then Conn_error (Stmt_c s) rv
      else Stmt_Exec_bind s (i + 1) rest
  | v :: rest =>
      let str := match v with
                 | VBool true => "1"
                 | VBool false => "0"
                 | _ => fmt_Sprint v
                 end in
      rv <- C (my_bind_text (Stmt_stmt s) (i + 1) str (Z.of_nat (String.length str))) ;;
      if negb (rv =? 0) then Conn_error (Stmt_c s) rv
      else Stmt_Exec_bind s (i + 1) rest
  end.

(** The error of [Stmt.Exec] for [have] arguments where the statement
    wants [want]. *)
Definition Exec_count_error (have want : Z) : error :=
  NewError ("incorrect argument count for Stmt.Exec: have " +:+ pretty have
            +:+ " want " +:+ pretty want).

(** [Stmt.Exec]: the receiver is mutated, so the statement is returned
    next to the error. *)
Definition Stmt_Exec (s : Stmt) (args : list value) : M (os_Error * Stmt) :=
  let s := Stmt_set_args s (" " +:+ fmt_v_slice args) in
  rv <- C (sqlite3_reset (Stmt_stmt s)) ;;
  if negb (rv =? 0) then
    e <- Conn_error (Stmt_c s) rv ;; ret (e, s)
  else
    n <- C (sqlite3_bind_parameter_count (Stmt_stmt s)) ;;
    if negb (n =? Z.of_nat (length args)) then
      ret (Some (Exec_count_error (Z.of_nat (length args)) n), s)
    else
      e <- Stmt_Exec_bind s 0 args ;; ret (e, s).

Definition Stmt_Error (s : Stmt) : os_Error := Stmt_err s.

Definition Stmt_Next (s : Stmt) : M (bool * Stmt) :=
  rv <- C (sqlite3_step (Stmt_stmt s)) ;;
  if rv =? Row then ret (true, s)
  else if negb (rv =? Done) then
    e <- Conn_error (Stmt_c s) rv ;; ret (false, Stmt_set_err s e)
  else ret (false, s).

Definition Stmt_Reset (s : Stmt) : M os_Error :=
  C (sqlite3_reset (Stmt_stmt s)) ;;; ret None.

Definition Stmt_SQL (s : Stmt) : string := Stmt_sql s +:+ Stmt_args s.

Definition Stmt_Nanoseconds (s : Stmt) : M Z :=
  t <- C time_Nanoseconds ;; ret (t - Stmt_t0 s).

Definition Stmt_Finalize (s : Stmt) : M os_Error :=
  rv <- C (sqlite3_finalize (Stmt_stmt s)) ;;
  if negb (rv =? 0) then Conn_error (Stmt_c s) rv else ret None.

(** The [switch] of [Stmt.Scan] on one destination: the value to store, or
    the error to return. *)
Definition Stmt_Scan_convert {F : Type} `{!Strconv F}
  (i : Z) (v : target) (data : list Byte.byte) : stored F + error :=
  match v with
  | TBytes => inl (SBytes data)
  | TString => inl (SString (string_of_list_byte data))
  | TBool => inl (SBool (String.eqb (string_of_list_byte data) "1"))
  | TInt =>
      match Atoi (string_of_list_byte data) with
      | inl x => inl (SInt x)
      | inr e => inr (NewError ("arg " +:+ pretty i +:+ " as int: " +:+ e))
      end
  | TInt64 =>
      match Atoi64 (string_of_list_byte data) with
      | inl x => inl (SInt64 x)
      | inr e => inr (NewError ("arg " +:+ pretty i +:+ " as int64: " +:+ e))
      end
  | TFloat64 =>
      match Atof64 (string_of_list_byte data) with
      | inl x => inl (SFloat64 x)
      | inr e => inr (NewError ("arg " +:+ pretty i +:+ " as float64: " +:+ e))
      end
  | TOther typ => inr (NewError ("unsupported type in Scan: " +:+ typ))
  end.

(** The [range args] loop of [Stmt.Scan], from column [i] on, with the
    values stored so far in the destinations before the failing one. *)
Fixpoint Stmt_Scan_loop {F : Type} `{!Strconv F}
  (s : Stmt) (i : Z) (args : list target) : M (os_Error * list (stored F)) :=
  match args with
  | [] => ret (None, [])
  | v :: rest =>
      n <- C (sqlite3_column_bytes (Stmt_stmt s) i) ;;
      p <- C (sqlite3_column_blob (Stmt_stmt s) i) ;;
      match p with
      | None =>
          if 0 <? n then ret (Some (NewError "got nil blob"), [])
          else
            match Stmt_Scan_convert i v [] with
            | inr e => ret (Some e, [])
            | inl x =>
                r <- Stmt_Scan_loop s (i + 1) rest ;; ret (fst r, x :: snd r)
            end
      | Some mem =>
          let data := if 0 <? n then take (Z.to_nat n) mem else [] in
          match Stmt_Scan_convert i v data with
          | inr e => ret (Some e, [])
          | inl x =>
              r <- Stmt_Scan_loop s (i + 1) rest ;; ret (fst r, x :: snd r)
          end
      end
  end.

Definition Stmt_Scan {F : Type} `{!Strconv F}
  (s : Stmt) (args : list target) : M (os_Error * list (stored F)) :=
  n <- C (sqlite3_column_count (Stmt_stmt s)) ;;
  if negb (n =? Z.of_nat (length args)) then
    ret (Some (NewError ("incorrect argument count for Stmt.Scan: have "
                         +:+ pretty (Z.of_nat (length args))
                         +:+ " want " +:+ pretty n)), [])
  else Stmt_Scan_loop s 0 args.

(** [Conn.Exec]: the deferred [Finalize] runs after the returned value has
    been computed, and its own result is dropped. *)
Definition Conn_Exec (c : option loc) (cmd : string) (args : list value)
  : M os_Error :=
  r <- Conn_Prepare c cmd ;;
  match r with
  | (_, Some err) => ret (Some err)
  | (None, None) => panic
  | (Some s, None) =>
      r <- Stmt_Exec s args ;;
      match fst r with
      | Some err => Stmt_Finalize (snd r) ;;; ret (Some err)
      | None =>
          rv <- C (sqlite3_step (Stmt_stmt (snd r))) ;;
          if negb (rv =? Done) then
            e <- Conn_error c rv ;; Stmt_Finalize (snd r) ;;; ret e
          else Stmt_Finalize (snd r) ;;; ret None
      end
  end.

(** ** Backup *)


Definition Backup_Step (b : Backup) (npage : Z) : M os_Error :=
  rv <- C (sqlite3_backup_step (Backup_sb b) npage) ;;
  if (rv =? 0) || (rv =? 5) || (rv =? 6) then ret None
  else ret (Some (Errno rv)).

Definition Backup_Status (b : Backup) : M BackupStatus :=
  r <- C (sqlite3_backup_remaining (Backup_sb b)) ;;
  p <- C (sqlite3_backup_pagecount (Backup_sb b)) ;;
  ret {| Remaining := r; PageCount := p |}.

(** What [Backup.Run] does after a [Step] that returned nil: the send on
    the channel, when there is one, and the sleep.  The send is taken to
    complete. *)
Definition Backup_Run_progress (b : Backup) (sleepNs : Z) (c : option N)
  : M unit :=
  match c with
  | Some ch => st <- Backup_Status b ;; emit (Sent ch st)
  | None => ret tt
  end ;;;
  emit (Slept sleepNs).

(** The [return] of [Backup.Run], after the loop. *)
Definition Backup_Run_return (b : Backup) : M os_Error :=
  match Backup_dst b with
  | None => panic
  | Some l =>
      d <- load_db l ;;
      rv <- C (sqlite3_errcode d) ;;
      Conn_error (Some l) rv
  end.

(** [Backup.Run].  The [for] of the source has no bound: [fuel] bounds the
    number of iterations, and [None] says that the loop was still running
    when it was used up. *)
Fixpoint Backup_Run (fuel : nat) (b : Backup) (npage sleepNs : Z)
  (c : option N) (w : World) : option (outcome os_Error) :=
  match fuel with
  | O => None
  | S fuel' =>
      match Backup_Step b npage w with
      | Panic w1 => Some (Panic w1)
      | Ret (Some _) w1 => Some (Backup_Run_return b w1)
      | Ret None w1 =>
          match Backup_Run_progress b sleepNs c w1 with
          | Panic w2 => Some (Panic w2)
          | Ret _ w2 => Backup_Run fuel' b npage sleepNs c w2
          end
      end
  end.

Definition Backup_Close (b : Backup) : M (os_Error * Backup) :=
  match Backup_sb b with
  | None => ret (Some EINVAL, b)
  | Some h =>
      C (sqlite3_backup_finish (Some h)) ;;;
      ret (None, Backup_set_sb b None)
  end.

(** ** Relations for stating the properties *)

(** [Run_iterates b npage sleepNs c k w w']: from [w], the loop of
    [Backup.Run] goes [k] times round, each [Step] returning nil, and is
    at the head of the loop again in [w']. *)
Inductive Run_iterates (b : Backup) (npage sleepNs : Z) (c : option N)
  : nat -> World -> World -> Prop :=
| Run_iterates_O (w : World) : Run_iterates b npage sleepNs c O w w
| Run_iterates_S (k : nat) (w w1 w2 w3 : World) :
    Backup_Step b npage w = Ret None w1 ->
    Backup_Run_progress b sleepNs c w1 = Ret tt w2 ->
    Run_iterates b npage sleepNs c k w2 w3 ->
    Run_iterates b npage sleepNs c (S k) w w3.

(** One operation on a statement, among those that leave a recorded
    error alone: [Next] when the engine reports a row or the end of the
    rows, [Reset], [Exec] and [Scan]. *)
Inductive Stmt_quiet_step {F : Type} `{!Strconv F}
  : Stmt * World -> Stmt * World -> Prop :=
| quiet_Next_Row (s s' : Stmt) (w w' : World) (r : bool) :
    answer (sqlite3_step (Stmt_stmt s)) w = Row ->
    Stmt_Next s w = Ret (r, s') w' ->
    Stmt_quiet_step (s, w) (s', w')
| quiet_Next_Done (s s' : Stmt) (w w' : World) (r : bool) :
    answer (sqlite3_step (Stmt_stmt s)) w = Done ->
    Stmt_Next s w = Ret (r, s') w' ->
    Stmt_quiet_step (s, w) (s', w')
| quiet_Reset (s : Stmt) (w w' : World) (e : os_Error) :
    Stmt_Reset s w = Ret e w' ->
    Stmt_quiet_step (s, w) (s, w')
| quiet_Exec (s s' : Stmt) (args : list value) (w w' : World) (e : os_Error) :
    Stmt_Exec s args w = Ret (e, s') w' ->
    Stmt_quiet_step (s, w) (s', w')
| quiet_Scan (s : Stmt) (args : list target) (w w' : World)
    (r : os_Error * list (stored F)) :
    Stmt_Scan s args w = Ret r w' ->
    Stmt_quiet_step (s, w) (s, w').

End Wrapper.

Arguments World E : clear implicits.
Arguments outcome E A : clear implicits.
Arguments M E A : clear implicits.
Arguments Ret {E A} _ _.
Arguments Panic {E A} _.

(** ** Reading the log *)

(** Whether an event releases the backup handle [h]. *)
Definition is_backup_finish (h : N) (ev : event) : bool :=
  match ev with
  | Called c =>
      match c with
      | sqlite3_backup_finish (Some h') => N.eqb h h'
      | _ => false
      end
  | _ => false
  end.

(** How many times the log releases the backup handle [h]. *)
Definition releases (h : N) (evs : list event) : nat :=
  length (filter (fun ev => is_backup_finish h ev = true) evs).

(** The bind call the specification asks for, for the argument [v] at the
    0-based position [i] of the argument list: a byte sequence as a blob,
    the empty one as the null pointer with length 0; a boolean as the text
    1 or 0; anything else as its default text rendering. *)
Definition spec_bind (stmt : ptr) (i : nat) (v : value) : event :=
  let n := Z.of_nat i + 1 in
  match v with
  | VBytes [] => Called (my_bind_blob stmt n None 0)
  | VBytes b => Called (my_bind_blob stmt n (Some b) (Z.of_nat (length b)))
  | VBool true => Called (my_bind_text stmt n "1" 1)
  | VBool false => Called (my_bind_text stmt n "0" 1)
  | _ => Called (my_bind_text stmt n (fmt_Sprint v)
                   (Z.of_nat (String.length (fmt_Sprint v))))
  end.

(** ** A scripted engine

    An engine for running the wrapper on concrete inputs: the calls that
    return a status take their answers from a list, in order, and the
    other calls read fixed fields. *)

Record Script : Type := {
  script_status : list Z;
  script_errmsg : string;
  script_errcode : Z;
  script_nparams : Z;
  script_columns : list (list Byte.byte)
}.

Definition script_pop (m : Script) : Z * Script :=
  match script_status m with
  | [] => (0, m)
  | rv :: rest =>
      (rv, {| script_status := rest; script_errmsg := script_errmsg m;
              script_errcode := script_errcode m;
              script_nparams := script_nparams m;
              script_columns := script_columns m |})
  end.

Definition script_column (m : Script) (i : Z) : list Byte.byte :=
  if i <? 0 then [] else default [] (script_columns m !! Z.to_nat i).

Definition script_respond (R : Type) (c : call R) (m : Script) : R * Script :=
  match c in call R return R * Script with
  | sqlite3_errmsg _ => (script_errmsg m, m)
  | sqlite3_errcode _ => (script_errcode m, m)
  | sqlite3_prepare_v2 _ _ _ =>
      let (rv, m') := script_pop m in
      ((rv, if rv =? 0 then Some 1%N else None), m')
  | sqlite3_bind_parameter_count _ => (script_nparams m, m)
  | sqlite3_column_count _ => (Z.of_nat (length (script_columns m)), m)
  | sqlite3_column_bytes _ i => (Z.of_nat (length (script_column m i)), m)
  | sqlite3_column_blob _ i =>
      (match script_column m i with [] => None | d => Some d end, m)
  | sqlite3_backup_init _ _ _ _ =>
      let (rv, m') := script_pop m in
      (if rv =? 0 then Some 3%N else None, m')
  | sqlite3_backup_remaining _ => (Z.of_nat (length (script_status m)), m)
  | sqlite3_backup_pagecount _ => (Z.of_nat (length (script_status m)), m)
  | time_Nanoseconds => (0, m)
  | sqlite3_close _ | sqlite3_busy_timeout _ _ | sqlite3_reset _
  | my_bind_blob _ _ _ _ | my_bind_text _ _ _ _ | sqlite3_step _
  | sqlite3_finalize _ | sqlite3_backup_step _ _
  | sqlite3_backup_finish _ => script_pop m
  end.

#[export] Instance script_engine : Engine Script := script_respond.

Definition script (statuses : list Z) (msg : string) (code nparams : Z)
  : Script :=
  {| script_status := statuses; script_errmsg := msg; script_errcode := code;
     script_nparams := nparams; script_columns := [] |}.

(** A world with one open connection at location 0 (handle 7) and nothing
    logged; every other location holds a closed [Conn]. *)
Definition world0 (m : Script) : World Script :=
  {| engine := m;
     conns := fun l => if N.eqb l 0 then {| Conn_db := Some 7%N |}
                       else {| Conn_db := None |};
     events := [] |}.

(** A [strconv] for the scripted runs: optionally signed decimal
    numerals, within the range of the destination; [float64] is cut down
    to the integers. *)
Fixpoint parse_digits (s : string) (acc : Z) : option Z :=
  match s with
  | EmptyString => Some acc
  | String a r =>
      let d := Z.of_N (N_of_ascii a) - 48 in
      if (0 <=? d) && (d <=? 9) then parse_digits r (10 * acc + d) else None
  end.

Definition parse_int (bits : Z) (s : string) : Z + string :=
  let (neg, body) :=
    match s with
    | String "-"%char r => (true, r)
    | String "+"%char r => (false, r)
    | _ => (false, s)
    end in
  match body with
  | EmptyString => inr "invalid argument"
  | _ =>
      match parse_digits body 0 with
      | None => inr "invalid argument"
      | Some n =>
          let x := if neg then - n else n in
          if (- 2 ^ (bits - 1) <=? x) && (x <? 2 ^ (bits - 1)) then inl x
          else inr "numerical result out of range"
      end
  end.

#[export] Instance script_strconv : Strconv Z :=
  {| Atoi := parse_int 32; Atoi64 := parse_int 64; Atof64 := parse_int 64 |}.

(** A statement on the connection at location 0, and a backup session
    into it. *)
Definition stmt0 : Stmt :=
  {| Stmt_c := Some 0%N; Stmt_stmt := Some 1%N; Stmt_err := None;
     Stmt_t0 := 0; Stmt_sql := "select a,b from t"; Stmt_args := "" |}.

Definition backup0 : Backup :=
  {| Backup_sb := Some 3%N; Backup_dst := Some 0%N; Backup_src := Some 1%N |}.

(** The value and the final world of an outcome. *)
Definition result {E A : Type} (o : outcome E A) : option A :=
  match o with
  | Ret a _ => Some a
  | Panic _ => None
  end.

Definition final {E A : Type} (o : outcome E A) : World E :=
  match o with
  | Ret _ w => w
  | Panic w => w
  end.

(** ** Reading the log, by kind of event *)

Fixpoint count_events (P : event -> bool) (evs : list event) : nat :=
  match evs with
  | [] => O
  | ev :: rest => ((if P ev then 1 else 0) + count_events P rest)%nat
  end.

Definition is_sleep (ev : event) : bool :=
  match ev with Slept _ => true | _ => false end.

Definition is_send (ev : event) : bool :=
  match ev with Sent _ _ => true | _ => false end.

Definition is_backup_step_call (ev : event) : bool :=
  match ev with
  | Called c => match c with sqlite3_backup_step _ _ => true | _ => false end
  | _ => false
  end.

Definition is_status_call (ev : event) : bool :=
  match ev with
  | Called c =>
      match c with
      | sqlite3_backup_remaining _ | sqlite3_backup_pagecount _ => true
      | _ => false
      end
  | _ => false
  end.

Definition is_finalize_call (ev : event) : bool :=
  match ev with
  | Called c => match c with sqlite3_finalize _ => true | _ => false end
  | _ => false
  end.

Definition is_errmsg_call (ev : event) : bool :=
  match ev with
  | Called c => match c with sqlite3_errmsg _ => true | _ => false end
  | _ => false
  end.


(** The queries for the engine's error code and message. *)
Definition is_error_query (ev : event) : bool :=
  match ev with
  | Called c =>
      match c with
      | sqlite3_errcode _ | sqlite3_errmsg _ => true
      | _ => false
      end
  | _ => false
  end.

(** The calls that close a connection. *)
Definition is_close_call (ev : event) : bool :=
  match ev with
  | Called c => match c with sqlite3_close _ => true | _ => false end
  | _ => false
  end.

(** The calls [Stmt.Exec] makes: reset, parameter count, the two binds,
    and the query for the engine's message. *)
Definition is_Exec_call (ev : event) : bool :=
  match ev with
  | Called c =>
      match c with
      | sqlite3_reset _ | sqlite3_bind_parameter_count _
      | my_bind_blob _ _ _ _ | my_bind_text _ _ _ _ | sqlite3_errmsg _ => true
      | _ => false
      end
  | _ => false
  end.

(** The calls [Conn.Prepare] makes. *)
Definition is_Prepare_call (ev : event) : bool :=
  match ev with
  | Called c =>
      match c with
      | sqlite3_prepare_v2 _ _ _ | time_Nanoseconds | sqlite3_errmsg _ => true
      | _ => false
      end
  | _ => false
  end.

Definition is_step_call (ev : event) : bool :=
  match ev with
  | Called c => match c with sqlite3_step _ => true | _ => false end
  | _ => false
  end.


(** [extends_log P w w']: from [w] to [w'] the heap of connections is
    unchanged and the log has grown by events that satisfy [P]. *)
Definition extends_log {E : Type} (P : event -> bool) (w w' : World E)
  : Prop :=
  conns w' = conns w
  /\ exists l : list event, events w' = events w ++ l /\ forallb P l = true.

(** [keeps_connections w w']: from [w] to [w'] no connection has changed
    and [sqlite3_close] has not been called. *)
Definition keeps_connections {E : Type} (w w' : World E) : Prop :=
  conns w' = conns w
  /\ count_events is_close_call (events w')
     = count_events is_close_call (events w).

(** * Properties *)

Section Properties.
Context {E : Type} `{!Engine E}.

Implicit Types (w : World E) (s : Stmt) (b : Backup) (c : option loc).

(** ** Running the monad *)

Lemma C_run {R : Type} (k : call R) w :
  C k w = Ret (answer k w) (after_call k w).
Proof.
  unfold C, answer, after_call.
  destruct (respond k (engine w)); reflexivity.
Qed.

Lemma bind_run {A B : Type} (m : M E A) (f : A -> M E B) w a w' :
  m w = Ret a w' -> bind m f w = f a w'.
Proof. intros Hm. unfold bind. rewrite Hm. reflexivity. Qed.

Lemma bind_C {R B : Type} (k : call R) (f : R -> M E B) w :
  bind (C k) f w = f (answer k w) (after_call k w).
Proof. apply bind_run, C_run. Qed.

Lemma bind_C_if {B : Type} (k : call Z) (f : Z -> M E B) (g : M E B) w :
  bind (C k) (fun rv => if negb (rv =? 0) then f rv else g) w
  = if negb (answer k w =? 0) then f (answer k w) (after_call k w)
    else g (after_call k w).
Proof. rewrite bind_C. destruct (negb _); reflexivity. Qed.

Lemma open_db_run c w : open_db c w = Ret (Conn_handle c w) w.
Proof. destruct c; reflexivity. Qed.

Lemma events_after_call {R : Type} (k : call R) w :
  events (after_call k w) = events w ++ [Called k].
Proof. reflexivity. Qed.

Lemma conns_after_call {R : Type} (k : call R) w :
  conns (after_call k w) = conns w.
Proof. reflexivity. Qed.

Lemma Conn_handle_after_call {R : Type} (k : call R) c w :
  Conn_handle c (after_call k w) = Conn_handle c w.
Proof. destruct c; reflexivity. Qed.

(** [Conn.error] always returns, and leaves the heap alone. *)
Lemma Conn_error_run c rv w :
  Conn_error c rv w =
  match Conn_handle c w with
  | None => Ret (Some (NewError "nil sqlite database")) w
  | Some h =>
      if rv =? 0 then Ret None w
      else if rv =? 21 then Ret (Some (Errno rv)) w
      else Ret (Some (NewError (Errno_String rv +:+ ": "
                                +:+ answer (sqlite3_errmsg (Some h)) w)))
               (after_call (sqlite3_errmsg (Some h)) w)
  end.
Proof.
  unfold Conn_error. rewrite (bind_run _ _ _ _ _ (open_db_run c w)).
  destruct (Conn_handle c w) as [h|]; [|reflexivity].
  destruct (rv =? 0); [reflexivity|].
  destruct (rv =? 21); [reflexivity|].
  rewrite bind_C. reflexivity.
Qed.

(** A status other than 0 is always rendered as an error. *)
Lemma Conn_error_nonzero c rv w e w' :
  rv <> 0 -> Conn_error c rv w = Ret e w' -> e <> None.
Proof.
  intros Hrv. rewrite Conn_error_run.
  destruct (Conn_handle c w); [|intros [= <- _]; discriminate].
  destruct (Z.eqb_spec rv 0); [contradiction|].
  destruct (rv =? 21); intros [= <- _]; discriminate.
Qed.

(** ** Conn.error *)

(** C1. [Conn.error] is a full case analysis: without an open handle it
    returns the nil-database error whatever the status; with one, status 0
    gives nil, status 21 gives the bare code, whose text has no suffix, and
    any other status gives the canonical text, a colon and the message the
    engine reports for this connection. *)
Theorem Conn_error_cases c rv w :
  (Conn_handle c w = None ->
   Conn_error c rv w = Ret (Some (NewError "nil sqlite database")) w)
  /\ (forall h : N, Conn_handle c w = Some h ->
      (rv = 0 -> Conn_error c rv w = Ret None w)
      /\ (rv = 21 ->
          Conn_error c rv w = Ret (Some (Errno 21)) w
          /\ error_String (Errno 21) = "Library used incorrectly")
      /\ (rv <> 0 -> rv <> 21 ->
          let k := sqlite3_errmsg (Some h) in
          let e := NewError (Errno_String rv +:+ ": " +:+ answer k w) in
          Conn_error c rv w = Ret (Some e) (after_call k w)
          /\ error_String e = Errno_String rv +:+ ": " +:+ answer k w)).
Proof.
  rewrite Conn_error_run. split.
  - intros ->. reflexivity.
  - intros h ->. repeat split.
    + intros ->. reflexivity.
    + subst rv. reflexivity.
    + destruct (Z.eqb_spec rv 0); [contradiction|].
      destruct (Z.eqb_spec rv 21); [contradiction|]. reflexivity.
Qed.

(** ** Stmt.Next *)

(** [Stmt.Next] when the engine reports a row or the end of the rows: the
    statement is returned as it was. *)
Lemma Stmt_Next_quiet s w :
  let k := sqlite3_step (Stmt_stmt s) in
  (answer k w = Row -> Stmt_Next s w = Ret (true, s) (after_call k w))
  /\ (answer k w = Done -> Stmt_Next s w = Ret (false, s) (after_call k w)).
Proof.
  cbv zeta. unfold Stmt_Next. rewrite bind_C.
  split; intros ->; reflexivity.
Qed.

(** C3. [Stmt.Next] by the status of the engine's step: true on a row;
    false with the statement untouched at the end of the rows; on any
    other status false, with the rendering of that status by [Conn.error]
    recorded and read back by [Stmt.Error].  The recorded error is not nil
    when the status is not 0. *)
Theorem Stmt_Next_cases s w :
  let k := sqlite3_step (Stmt_stmt s) in
  let rv := answer k w in
  (rv = Row -> Stmt_Next s w = Ret (true, s) (after_call k w))
  /\ (rv = Done -> Stmt_Next s w = Ret (false, s) (after_call k w))
  /\ (rv <> Row -> rv <> Done ->
      exists (e : os_Error) (w' : World E) (s' : Stmt),
        Conn_error (Stmt_c s) rv (after_call k w) = Ret e w'
        /\ Stmt_Next s w = Ret (false, s') w'
        /\ Stmt_Error s' = e
        /\ (rv <> 0 -> Stmt_Error s' <> None)).
Proof.
  intros k rv. split; [apply Stmt_Next_quiet|].
  split; [apply Stmt_Next_quiet|].
  unfold Stmt_Next. rewrite bind_C. fold k. fold rv.
  - intros HRow HDone.
    destruct (Z.eqb_spec rv Row); [contradiction|].
    destruct (Z.eqb_spec rv Done); [contradiction|]. cbn [negb].
    destruct (Conn_error (Stmt_c s) rv (after_call k w)) as [e w'|w'] eqn:He.
    + exists e, w', (Stmt_set_err s e). repeat split.
      * unfold bind. rewrite He. reflexivity.
      * intros Hrv. cbn. eapply Conn_error_nonzero; eassumption.
    + rewrite Conn_error_run in He.
      destruct (Conn_handle _ _); [|discriminate].
      destruct (rv =? 0); [discriminate|]. destruct (rv =? 21); discriminate.
Qed.

(** ** Backup.Step *)

(** C6. [Backup.Step], for any page count: nil when the engine's status is
    0, busy (5) or locked (6); the status as an error otherwise. *)
Theorem Backup_Step_cases b (npage : Z) w :
  let k := sqlite3_backup_step (Backup_sb b) npage in
  let rv := answer k w in
  (rv = 0 \/ rv = 5 \/ rv = 6 ->
   Backup_Step b npage w = Ret None (after_call k w))
  /\ (rv <> 0 -> rv <> 5 -> rv <> 6 ->
      Backup_Step b npage w = Ret (Some (Errno rv)) (after_call k w)).
Proof.
  intros k rv. unfold Backup_Step. rewrite bind_C. fold k. fold rv. split.
  - intros [-> | [-> | ->]]; reflexivity.
  - intros H0 H5 H6.
    destruct (Z.eqb_spec rv 0); [contradiction|].
    destruct (Z.eqb_spec rv 5); [contradiction|].
    destruct (Z.eqb_spec rv 6); [contradiction|]. reflexivity.
Qed.

(** ** Backup.Close *)

Lemma releases_app (h : N) (l1 l2 : list event) :
  releases h (l1 ++ l2) = (releases h l1 + releases h l2)%nat.
Proof. unfold releases. rewrite filter_app, length_app. reflexivity. Qed.

(** C7. Closing a session twice: the first [Close] returns nil and clears
    the handle, the second returns [EINVAL] and does nothing, and over
    the two calls the handle is released once. *)
Theorem Backup_Close_twice b (h : N) w :
  Backup_sb b = Some h ->
  exists (b1 : Backup) (w1 : World E),
    Backup_Close b w = Ret (None, b1) w1
    /\ Backup_sb b1 = None
    /\ Backup_Close b1 w1 = Ret (Some EINVAL, b1) w1
    /\ events w1 = events w ++ [Called (sqlite3_backup_finish (Some h))]
    /\ releases h (events w1) = S (releases h (events w)).
Proof.
  intros Hsb.
  exists (Backup_set_sb b None), (after_call (sqlite3_backup_finish (Some h)) w).
  unfold Backup_Close. rewrite Hsb, bind_C. cbn [Backup_set_sb Backup_sb].
  repeat split.
  rewrite events_after_call, releases_app. unfold releases at 2. cbn.
  rewrite N.eqb_refl, decide_True by reflexivity. cbn. lia.
Qed.

(** ** Prepare and Exec on a closed connection *)

(** C8. On a connection without an open handle, [Conn.Prepare] and
    [Conn.Exec] return the nil-database error for every SQL text and every
    argument list, in the world they were called in: no call was made. *)
Theorem closed_Conn_fails_fast c (cmd : string) (args : list value) w :
  Conn_handle c w = None ->
  Conn_Prepare c cmd w = Ret (None, Some (NewError "nil sqlite database")) w
  /\ Conn_Exec c cmd args w = Ret (Some (NewError "nil sqlite database")) w.
Proof.
  intros Hc.
  assert (HP : Conn_Prepare c cmd w
               = Ret (None, Some (NewError "nil sqlite database")) w).
  { unfold Conn_Prepare. rewrite (bind_run _ _ _ _ _ (open_db_run c w)), Hc.
    reflexivity. }
  split; [exact HP|].
  unfold Conn_Exec. rewrite (bind_run _ _ _ _ _ HP). reflexivity.
Qed.

(** ** Stmt.Exec *)

(** [Stmt.Exec] up to its loop. *)
Lemma Stmt_Exec_run s (args : list value) w :
  let s1 := Stmt_set_args s (" " +:+ fmt_v_slice args) in
  let k1 := sqlite3_reset (Stmt_stmt s) in
  let k2 := sqlite3_bind_parameter_count (Stmt_stmt s) in
  let w1 := after_call k1 w in
  let w2 := after_call k2 w1 in
  Stmt_Exec s args w =
  if negb (answer k1 w =? 0) then
    bind (Conn_error (Stmt_c s) (answer k1 w)) (fun e => ret (e, s1)) w1
  else if negb (answer k2 w1 =? Z.of_nat (length args)) then
    Ret (Some (Exec_count_error (Z.of_nat (length args)) (answer k2 w1)), s1) w2
  else bind (Stmt_Exec_bind s1 0 args) (fun e => ret (e, s1)) w2.
Proof.
  cbv zeta. unfold Stmt_Exec. cbn [Stmt_set_args Stmt_stmt Stmt_c].
  rewrite bind_C. destruct (negb _); [reflexivity|].
  rewrite bind_C. destruct (negb _); reflexivity.
Qed.

(** C4, amended. When the engine's reset of the statement reports status
    0, [Stmt.Exec] with a number of arguments other than the number of
    bind parameters of the statement returns the argument-count error. *)
Theorem Stmt_Exec_count_mismatch s (args : list value) w :
  let k1 := sqlite3_reset (Stmt_stmt s) in
  let k2 := sqlite3_bind_parameter_count (Stmt_stmt s) in
  let m := answer k2 (after_call k1 w) in
  answer k1 w = 0 ->
  m <> Z.of_nat (length args) ->
  exists (s' : Stmt) (w' : World E),
    Stmt_Exec s args w
    = Ret (Some (Exec_count_error (Z.of_nat (length args)) m), s') w'.
Proof.
  intros k1 k2 m Hreset Hm. rewrite Stmt_Exec_run. fold k1 k2.
  rewrite Hreset. cbn [Z.eqb negb]. fold m.
  destruct (Z.eqb_spec m (Z.of_nat (length args))); [contradiction|].
  cbn [negb]. eauto.
Qed.

(** The canonical text of a status never starts with a lower-case i. *)
Lemma Errno_String_head (rv : Z) :
  exists (a : Ascii.ascii) (r : string),
    Errno_String rv = String a r /\ a <> "i"%char.
Proof.
  unfold Errno_String.
  destruct (errText !! rv) as [t|] eqn:Ht; cbn [default].
  - apply elem_of_list_to_map_2 in Ht.
    repeat (apply elem_of_cons in Ht as [Ht|Ht];
            [injection Ht as -> ->; cbn; eexists _, _; split;
             [reflexivity|discriminate]|]).
    apply elem_of_nil in Ht. contradiction.
  - cbn. eexists _, _. split; [reflexivity|discriminate].
Qed.

(** No rendering by [Conn.error] is the argument-count error. *)
Lemma Conn_error_not_count c rv w (e : os_Error) w' (have want : Z) :
  Conn_error c rv w = Ret e w' -> e <> Some (Exec_count_error have want).
Proof.
  rewrite Conn_error_run. unfold Exec_count_error.
  destruct (Conn_handle c w) as [h|].
  - destruct (rv =? 0); [intros [= <- _]; discriminate|].
    destruct (rv =? 21); [intros [= <- _]; discriminate|].
    intros [= <- _] [= Heq].
    destruct (Errno_String_head rv) as (a & r & Hr & Ha).
    rewrite Hr in Heq. cbv beta iota delta [String.append] in Heq.
    injection Heq as Heq _. contradiction.
  - intros [= <- _] Heq. inversion Heq.
Qed.

(** One turn of the loop of [Stmt.Exec]: the call it makes is the one the
    specification asks for, and its status decides how the loop goes on. *)
Lemma Stmt_Exec_bind_cons s (i : nat) (v : value) (rest : list value) w :
  exists k : call Z,
    spec_bind (Stmt_stmt s) i v = Called k
    /\ Stmt_Exec_bind s (Z.of_nat i) (v :: rest) w
       = if negb (answer k w =? 0)
         then Conn_error (Stmt_c s) (answer k w) (after_call k w)
         else Stmt_Exec_bind s (Z.of_nat (S i)) rest (after_call k w).
Proof.
  replace (Z.of_nat (S i)) with (Z.of_nat i + 1) by lia.
  destruct v as [[|x l]|[|]| | | |]; eexists; (split; [reflexivity|]);
    cbn [Stmt_Exec_bind]; exact (bind_C_if _ _ _ _).
Qed.

Lemma Stmt_Exec_bind_not_count (args : list value) s (i : nat) w
  (e : os_Error) w' (have want : Z) :
  Stmt_Exec_bind s (Z.of_nat i) args w = Ret e w' ->
  e <> Some (Exec_count_error have want).
Proof.
  revert i w. induction args as [|v rest IH]; intros i w.
  - intros [= <- _]. discriminate.
  - destruct (Stmt_Exec_bind_cons s i v rest w) as (k & _ & ->).
    destruct (negb _).
    + apply Conn_error_not_count.
    + apply IH.
Qed.

(** C9. When [Stmt.Exec] returns the argument-count error, the statement
    and the engine are not as they were: the reset and the parameter-count
    query have been issued, from the world they left, and the recorded
    argument text, which [SQL] appends, is that of the new arguments. *)
Theorem Stmt_Exec_count_error_not_atomic
  s (args : list value) w s' w' (have want : Z) :
  Stmt_Exec s args w = Ret (Some (Exec_count_error have want), s') w' ->
  let k1 := sqlite3_reset (Stmt_stmt s) in
  let k2 := sqlite3_bind_parameter_count (Stmt_stmt s) in
  w' = after_call k2 (after_call k1 w)
  /\ events w' = events w ++ [Called k1; Called k2]
  /\ events w' <> events w
  /\ Stmt_args s' = " " +:+ fmt_v_slice args
  /\ Stmt_SQL s' = Stmt_sql s +:+ " " +:+ fmt_v_slice args.
Proof.
  intros HExec k1 k2. rewrite Stmt_Exec_run in HExec. fold k1 k2 in HExec.
  destruct (negb (answer k1 w =? 0)).
  { exfalso. unfold bind in HExec.
    destruct (Conn_error _ _ _) as [e w1|w1] eqn:He; [|discriminate].
    injection HExec as -> _ _.
    eapply Conn_error_not_count; [exact He|reflexivity]. }
  destruct (Z.eqb_spec (answer k2 (after_call k1 w)) (Z.of_nat (length args)))
    as [Heq|Hne]; cbn [negb] in HExec.
  { exfalso. unfold bind in HExec.
    destruct (Stmt_Exec_bind _ _ _ _) as [e w1|w1] eqn:He; [|discriminate].
    injection HExec as -> _ _.
    eapply (Stmt_Exec_bind_not_count _ _ O); [exact He|reflexivity]. }
  injection HExec as _ <- <-.
  repeat split.
  - rewrite !events_after_call, <- app_assoc. reflexivity.
  - rewrite !events_after_call, <- app_assoc. intros Heq.
    apply (f_equal length) in Heq. rewrite length_app in Heq. cbn in Heq. lia.
Qed.

(** What [Conn.error] adds to the log: nothing, or the query for the
    engine's message. *)
Lemma Conn_error_events c rv w (e : os_Error) w' :
  Conn_error c rv w = Ret e w' ->
  exists tail : list event,
    events w' = events w ++ tail
    /\ (tail = [] \/ exists h : ptr, tail = [Called (sqlite3_errmsg h)]).
Proof.
  rewrite Conn_error_run.
  destruct (Conn_handle c w) as [h|].
  - destruct (rv =? 0); [|destruct (rv =? 21)]; intros [= _ <-].
    + exists []. rewrite app_nil_r. auto.
    + exists []. rewrite app_nil_r. auto.
    + eexists. split; [apply events_after_call|]. eauto.
  - intros [= _ <-]. exists []. rewrite app_nil_r. auto.
Qed.

(** The calls of the loop of [Stmt.Exec] are, in order, those the
    specification asks for; the loop stops at the first one that fails. *)
Lemma Stmt_Exec_bind_events (args : list value) s (i : nat) w
  (e : os_Error) w' :
  Stmt_Exec_bind s (Z.of_nat i) args w = Ret e w' ->
  exists (n : nat) (tail : list event),
    events w'
    = events w
      ++ take n (imap (fun j => spec_bind (Stmt_stmt s) (i + j)) args) ++ tail
    /\ (e = None -> n = length args /\ tail = [])
    /\ (tail = [] \/ exists h : ptr, tail = [Called (sqlite3_errmsg h)]).
Proof.
  revert i w. induction args as [|v rest IH]; intros i w.
  - intros [= <- <-]. exists O, []. cbn. rewrite app_nil_r. auto.
  - destruct (Stmt_Exec_bind_cons s i v rest w) as (k & Hk & ->).
    rewrite imap_cons, Nat.add_0_r, Hk.
    destruct (Z.eqb_spec (answer k w) 0) as [Hz|Hnz]; cbn [negb].
    + intros Hrest. apply IH in Hrest as (n & tail & Hev & Hnone & Htail).
      exists (S n), tail. split; [|split; [|exact Htail]].
      * rewrite Hev, events_after_call, <- app_assoc. cbn [take app].
        do 4 f_equal. apply imap_ext. intros j x _. cbn.
        f_equal; lia.
      * intros He. destruct (Hnone He) as [-> ->]. auto.
    + intros Herr. pose proof (Conn_error_nonzero _ _ _ _ _ Hnz Herr) as Hne.
      apply Conn_error_events in Herr as (tail & Hev & Htail).
      exists 1%nat, tail. split; [|split; [|exact Htail]].
      * rewrite Hev, events_after_call, <- app_assoc. reflexivity.
      * intros He. contradiction.
Qed.

(** C5. The calls of [Stmt.Exec]: after the reset and the parameter-count
    query, one bind call per argument, in order and numbered from 1, each
    the one the specification asks for by the type of the argument
    ([spec_bind]).  A successful [Exec] makes them all; a failing one makes
    a prefix of them, and then at most asks the engine for its message. *)
Theorem Stmt_Exec_binds_by_type s (args : list value) w (e : os_Error) s' w' :
  Stmt_Exec s args w = Ret (e, s') w' ->
  let calls := Called (sqlite3_reset (Stmt_stmt s))
               :: Called (sqlite3_bind_parameter_count (Stmt_stmt s))
               :: imap (spec_bind (Stmt_stmt s)) args in
  (e = None -> events w' = events w ++ calls)
  /\ exists (n : nat) (tail : list event),
       events w' = events w ++ take n calls ++ tail
       /\ (tail = [] \/ exists h : ptr, tail = [Called (sqlite3_errmsg h)]).
Proof.
  intros HExec calls. rewrite Stmt_Exec_run in HExec.
  set (k1 := sqlite3_reset (Stmt_stmt s)) in *.
  set (k2 := sqlite3_bind_parameter_count (Stmt_stmt s)) in *.
  destruct (Z.eqb_spec (answer k1 w) 0) as [Hz|Hnz]; cbn [negb] in HExec.
  - destruct (negb (answer k2 (after_call k1 w) =? _)).
    + injection HExec as <- _ <-. split; [discriminate|].
      exists 2%nat, []. split; [|auto].
      rewrite !events_after_call, <- app_assoc. reflexivity.
    + unfold bind in HExec.
      destruct (Stmt_Exec_bind _ _ _ _) as [e1 w1|w1] eqn:He; [|discriminate].
      injection HExec as <- _ <-.
      apply (Stmt_Exec_bind_events _ _ O) in He
        as (n & tail & Hev & Hnone & Htail).
      cbn [Stmt_set_args Stmt_stmt Nat.add] in Hev.
      rewrite !events_after_call, <- !app_assoc in Hev. cbn [app] in Hev.
      split.
      * intros He. destruct (Hnone He) as [-> ->].
        rewrite Hev, app_nil_r. subst calls. do 3 f_equal.
        apply take_ge. rewrite length_imap. lia.
      * exists (S (S n)), tail. split; [exact Hev|exact Htail].
  - unfold bind in HExec.
    destruct (Conn_error _ _ _) as [e1 w1|w1] eqn:He; [|discriminate].
    injection HExec as <- _ <-.
    pose proof (Conn_error_nonzero _ _ _ _ _ Hnz He) as Hne.
    apply Conn_error_events in He as (tail & Hev & Htail).
    split; [intros He; contradiction|].
    exists 1%nat, tail. split; [|exact Htail].
    rewrite Hev, events_after_call, <- app_assoc. reflexivity.
Qed.

(** ** Backup.Run *)

Lemma Backup_Step_run b (npage : Z) w :
  let k := sqlite3_backup_step (Backup_sb b) npage in
  Backup_Step b npage w
  = Ret (if (answer k w =? 0) || (answer k w =? 5) || (answer k w =? 6)
         then None else Some (Errno (answer k w)))
        (after_call k w).
Proof.
  cbv zeta. unfold Backup_Step. rewrite bind_C.
  destruct (_ || _); reflexivity.
Qed.

Lemma Backup_Run_progress_run b (sleepNs : Z) (c : option N) w :
  exists w' : World E, Backup_Run_progress b sleepNs c w = Ret tt w'.
Proof.
  unfold Backup_Run_progress, Backup_Status, bind.
  destruct c as [ch|]; [rewrite C_run, C_run|]; eexists; reflexivity.
Qed.

(** [Backup.Run] is still in its loop after as many turns as [Step]
    returned nil. *)
Lemma Backup_Run_iterating b (npage sleepNs : Z) (c : option N)
  (k : nat) w wk :
  Run_iterates b npage sleepNs c k w wk ->
  Backup_Run k b npage sleepNs c w = None.
Proof.
  induction 1 as [|k w w1 w2 w3 HStep Hprog _ IH]; [reflexivity|].
  cbn [Backup_Run]. rewrite HStep, Hprog. exact IH.
Qed.

(** C2. [Backup.Run] leaves its loop exactly at the first [Step] that
    returns an error: it gives a result within [fuel] turns if and only if
    after some [k < fuel] turns whose [Step] returned nil the next [Step]
    returns an error [e].  The result is then not [e]: it is what
    [Conn.error] makes, on the destination, of the status that
    [sqlite3_errcode] reports for the destination's handle after that last
    [Step] (a panic when the destination pointer is nil).  While [Step]
    returns nil the loop goes on. *)
Theorem Backup_Run_exit b (npage sleepNs : Z) (c : option N)
  (fuel : nat) w (o : outcome E os_Error) :
  (Backup_Run fuel b npage sleepNs c w = Some o <->
   exists (k : nat) (wk ws : World E) (e : error),
     (k < fuel)%nat
     /\ Run_iterates b npage sleepNs c k w wk
     /\ Backup_Step b npage wk = Ret (Some e) ws
     /\ o = match Backup_dst b with
            | None => Panic ws
            | Some l =>
                let q := sqlite3_errcode (Conn_db (conns ws l)) in
                Conn_error (Some l) (answer q ws) (after_call q ws)
            end)
  /\ (forall wk : World E,
       Run_iterates b npage sleepNs c fuel w wk ->
       Backup_Run fuel b npage sleepNs c w = None).
Proof.
  split; [|apply Backup_Run_iterating].
  assert (Hret : forall ws : World E,
    Backup_Run_return b ws
    = match Backup_dst b with
      | None => Panic ws
      | Some l =>
          let q := sqlite3_errcode (Conn_db (conns ws l)) in
          Conn_error (Some l) (answer q ws) (after_call q ws)
      end).
  { intros ws. unfold Backup_Run_return.
    destruct (Backup_dst b) as [l|]; [|reflexivity].
    unfold load_db. cbn [bind]. rewrite bind_C. reflexivity. }
  split.
  - revert w. induction fuel as [|fuel IH]; intros w; [discriminate|].
    cbn [Backup_Run].
    destruct (Backup_Step b npage w) as [[e|] w1|w1] eqn:HStep.
    + intros [= <-]. exists O, w, w1, e.
      repeat split; [lia|constructor|exact HStep|apply Hret].
    + destruct (Backup_Run_progress_run b sleepNs c w1) as [w2 Hprog].
      rewrite Hprog. intros HRun.
      apply IH in HRun as (k & wk & ws & e & Hk & Hit & HStep' & Ho).
      exists (S k), wk, ws, e.
      repeat split; [lia|econstructor; eassumption|exact HStep'|exact Ho].
    + rewrite Backup_Step_run in HStep. discriminate.
  - intros (k & wk & ws & e & Hk & Hit & HStep & ->).
    revert fuel Hk.
    induction Hit as [|k w w1 w2 w3 HStep0 Hprog _ IH];
      intros [|fuel] Hk; try lia; cbn [Backup_Run].
    + rewrite HStep, Hret. reflexivity.
    + rewrite HStep0, Hprog. apply IH; [exact HStep|lia].
Qed.

End Properties.

(** ** The recorded error of a statement *)

Section Sticky.
Context {E : Type} `{!Engine E} {F : Type} `{!Strconv F}.

Lemma Stmt_Exec_stmt (s : Stmt) (args : list value) (w : World E)
  (e : os_Error) (s' : Stmt) (w' : World E) :
  Stmt_Exec s args w = Ret (e, s') w' ->
  s' = Stmt_set_args s (" " +:+ fmt_v_slice args).
Proof.
  rewrite Stmt_Exec_run. unfold bind.
  destruct (negb _).
  - destruct (Conn_error _ _ _); [|discriminate]. intros [= _ <- _]. reflexivity.
  - destruct (negb _).
    + intros [= _ <- _]. reflexivity.
    + destruct (Stmt_Exec_bind _ _ _ _); [|discriminate].
      intros [= _ <- _]. reflexivity.
Qed.

Lemma Stmt_quiet_step_err (x y : Stmt * World E) :
  Stmt_quiet_step (F := F) x y -> Stmt_Error (fst y) = Stmt_Error (fst x).
Proof.
  intros [s s' w w' r Hrv HNext|s s' w w' r Hrv HNext|s w w' e _
         |s s' args w w' e HExec|s args w w' r _]; cbn [fst].
  - rewrite (proj1 (Stmt_Next_quiet s w) Hrv) in HNext.
    injection HNext as _ <- _. reflexivity.
  - rewrite (proj2 (Stmt_Next_quiet s w) Hrv) in HNext.
    injection HNext as _ <- _. reflexivity.
  - reflexivity.
  - apply Stmt_Exec_stmt in HExec as ->. reflexivity.
  - reflexivity.
Qed.

(** C10. Over any sequence of [Next] calls that find a row or the end of
    the rows, [Reset], [Exec] and [Scan] calls, the error that [Stmt.Error]
    returns stays the one that was recorded: once not nil, it is never
    nil again.  In particular a [Next] at the end of the rows returns
    false and leaves the earlier error in place. *)
Theorem Stmt_Error_sticky (s s' : Stmt) (w w' : World E) :
  Stmt_Error s <> None ->
  (rtc (Stmt_quiet_step (F := F)) (s, w) (s', w') ->
   Stmt_Error s' = Stmt_Error s /\ Stmt_Error s' <> None)
  /\ (answer (sqlite3_step (Stmt_stmt s)) w = Done ->
      exists (s1 : Stmt) (w1 : World E),
        Stmt_Next s w = Ret (false, s1) w1
        /\ Stmt_Error s1 = Stmt_Error s /\ Stmt_Error s1 <> None).
Proof.
  intros Herr. split.
  - intros Hsteps.
    assert (Heq : Stmt_Error (fst (s', w')) = Stmt_Error (fst (s, w))).
    { induction Hsteps as [x|x y z Hxy _ IH]; [reflexivity|].
      rewrite IH. apply Stmt_quiet_step_err, Hxy. }
    cbn [fst] in Heq. split; [exact Heq|]. rewrite Heq. exact Herr.
  - intros HDone. eexists _, _.
    split; [apply (proj2 (Stmt_Next_quiet s w)), HDone|].
    split; [reflexivity|exact Herr].
Qed.

End Sticky.

(** * The properties on scripted runs *)

Lemma Ret_result_final {E A : Type} (o : outcome E A) (a : A) :
  result o = Some a -> o = Ret a (final o).
Proof. destruct o; [intros [= ->]; reflexivity|discriminate]. Qed.

(** Closes [f x w = Ret a (final (f x w))] by running [f]. *)
Ltac by_running := apply Ret_result_final; reflexivity.

(** [Backup.Run] returns nil both when the last [Step] reported the end
    of the backup and when it reported an error that the destination does
    not hold as its error code. *)
Example Backup_Run_hides_Step_error :
  result (Backup_Step backup0 10 (world0 (script [101] "" 0 0)))
  = Some (Some (Errno 101))
  /\ result (Backup_Step backup0 10 (world0 (script [1] "" 0 0)))
     = Some (Some (Errno 1))
  /\ option_map result
       (Backup_Run 1 backup0 10 0 None (world0 (script [101] "" 0 0)))
     = Some (Some None)
  /\ option_map result
       (Backup_Run 1 backup0 10 0 None (world0 (script [1] "" 0 0)))
     = Some (Some None).
Proof. repeat split. Qed.

(** C1 at status 1 on the open connection. *)
Lemma Conn_error_cases_witness :
  let w := world0 (script [] "no such table: t" 1 0) in
  Conn_handle (Some 0%N) w = Some 7%N
  /\ Conn_error (Some 0%N) 1 w
     = Ret (Some (NewError "SQL error or missing database: no such table: t"))
           (after_call (sqlite3_errmsg (Some 7%N)) w).
Proof.
  intros w. split; [reflexivity|].
  destruct (Conn_error_cases (Some 0%N) 1 w) as [_ H].
  destruct (H 7%N eq_refl) as (_ & _ & H3).
  destruct (H3 ltac:(lia) ltac:(lia)) as [H4 _]. exact H4.
Defined.

(** C3 at status 1: [Next] is false and the rendered error is recorded. *)
Lemma Stmt_Next_cases_witness :
  let w := world0 (script [1] "disk I/O error" 1 0) in
  let k := sqlite3_step (Stmt_stmt stmt0) in
  (answer k w <> Row /\ answer k w <> Done)
  /\ exists (e : os_Error) (w' : World Script) (s' : Stmt),
       Conn_error (Stmt_c stmt0) (answer k w) (after_call k w) = Ret e w'
       /\ Stmt_Next stmt0 w = Ret (false, s') w'
       /\ Stmt_Error s' = e
       /\ (answer k w <> 0 -> Stmt_Error s' <> None).
Proof.
  intros w k.
  assert (HRow : answer k w <> Row) by (vm_compute; discriminate).
  assert (HDone : answer k w <> Done) by (vm_compute; discriminate).
  split; [split; assumption|].
  exact (proj2 (proj2 (Stmt_Next_cases stmt0 w)) HRow HDone).
Defined.

(** C4 as stated fails when the reset reports an error: no arguments for
    a statement with one parameter, and [Exec] returns the rendering of
    the reset's status 1, not the argument-count error. *)
Lemma Stmt_Exec_count_counterexample :
  let w := world0 (script [1] "constraint failed" 1 1) in
  let k1 := sqlite3_reset (Stmt_stmt stmt0) in
  let k2 := sqlite3_bind_parameter_count (Stmt_stmt stmt0) in
  answer k2 (after_call k1 w) = 1
  /\ Z.of_nat (length (@nil value)) = 0
  /\ result (Stmt_Exec stmt0 [] w)
     = Some (Some (NewError "SQL error or missing database: constraint failed"),
             Stmt_set_args stmt0 " []")
  /\ forall (s' : Stmt) (w' : World Script),
       Stmt_Exec stmt0 [] w <> Ret (Some (Exec_count_error 0 1), s') w'.
Proof.
  intros w k1 k2. repeat split.
  intros s' w' H. apply (f_equal result) in H. vm_compute in H. discriminate.
Qed.

(** C4, amended, on no arguments for a statement with one parameter. *)
Lemma Stmt_Exec_count_mismatch_witness :
  let w := world0 (script [0] "" 0 1) in
  let k1 := sqlite3_reset (Stmt_stmt stmt0) in
  let k2 := sqlite3_bind_parameter_count (Stmt_stmt stmt0) in
  (answer k1 w = 0
   /\ answer k2 (after_call k1 w) <> Z.of_nat (length (@nil value)))
  /\ exists (s' : Stmt) (w' : World Script),
       Stmt_Exec stmt0 [] w
       = Ret (Some (Exec_count_error (Z.of_nat (length (@nil value)))
                      (answer k2 (after_call k1 w))), s') w'.
Proof.
  intros w k1 k2.
  assert (H1 : answer k1 w = 0) by reflexivity.
  assert (H2 : answer k2 (after_call k1 w) <> Z.of_nat (length (@nil value)))
    by (vm_compute; discriminate).
  split; [split; assumption|].
  exact (Stmt_Exec_count_mismatch stmt0 [] w H1 H2).
Defined.

(** C6 on a busy engine. *)
Lemma Backup_Step_cases_witness :
  let w := world0 (script [5] "" 0 0) in
  let k := sqlite3_backup_step (Backup_sb backup0) 10 in
  answer k w = 5
  /\ Backup_Step backup0 10 w = Ret None (after_call k w).
Proof.
  intros w k.
  assert (H : answer k w = 5) by reflexivity.
  split; [exact H|].
  exact (proj1 (Backup_Step_cases backup0 10 w) (or_intror (or_introl H))).
Defined.

(** C7 on the session [backup0]. *)
Lemma Backup_Close_twice_witness :
  let w := world0 (script [] "" 0 0) in
  Backup_sb backup0 = Some 3%N
  /\ exists (b1 : Backup) (w1 : World Script),
       Backup_Close backup0 w = Ret (None, b1) w1
       /\ Backup_sb b1 = None
       /\ Backup_Close b1 w1 = Ret (Some EINVAL, b1) w1
       /\ events w1 = events w ++ [Called (sqlite3_backup_finish (Some 3%N))]
       /\ releases 3 (events w1) = S (releases 3 (events w)).
Proof.
  intros w. split; [reflexivity|].
  exact (Backup_Close_twice backup0 3%N w eq_refl).
Defined.

(** C8 on the closed connection at location 1, and on the nil pointer. *)
Lemma closed_Conn_fails_fast_witness :
  let w := world0 (script [] "" 0 0) in
  Conn_handle (Some 1%N) w = None
  /\ Conn_Prepare (Some 1%N) "select 1" w
     = Ret (None, Some (NewError "nil sqlite database")) w
  /\ Conn_Exec None "insert into t values (?)" [VInt 1] w
     = Ret (Some (NewError "nil sqlite database")) w.
Proof.
  intros w. split; [reflexivity|]. split.
  - exact (proj1 (closed_Conn_fails_fast (Some 1%N) "select 1" [] w eq_refl)).
  - exact (proj2 (closed_Conn_fails_fast None "insert into t values (?)"
                    [VInt 1] w eq_refl)).
Defined.

(** C5 on one argument of each kind: the empty byte sequence, a byte
    sequence, the two booleans, an integer, a string and nil. *)
Lemma Stmt_Exec_binds_by_type_witness :
  let w := world0 (script [] "" 0 7) in
  let args := [VBytes []; VBytes [Byte.x01; Byte.xff]; VBool true;
               VBool false; VInt 42; VString "x"; VNil] in
  let o := Stmt_Exec stmt0 args w in
  result o = Some (None, Stmt_set_args stmt0 " [[] [1 255] true false 42 x <nil>]")
  /\ events (final o)
     = [Called (sqlite3_reset (Some 1%N));
        Called (sqlite3_bind_parameter_count (Some 1%N));
        Called (my_bind_blob (Some 1%N) 1 None 0);
        Called (my_bind_blob (Some 1%N) 2 (Some [Byte.x01; Byte.xff]) 2);
        Called (my_bind_text (Some 1%N) 3 "1" 1);
        Called (my_bind_text (Some 1%N) 4 "0" 1);
        Called (my_bind_text (Some 1%N) 5 "42" 2);
        Called (my_bind_text (Some 1%N) 6 "x" 1);
        Called (my_bind_text (Some 1%N) 7 "<nil>" 5)].
Proof.
  intros w args o.
  assert (Hr : result o
               = Some (None,
                       Stmt_set_args stmt0 " [[] [1 255] true false 42 x <nil>]"))
    by (vm_compute; reflexivity).
  split; [exact Hr|].
  rewrite (proj1 (Stmt_Exec_binds_by_type stmt0 args w None _ (final o)
                    (Ret_result_final o _ Hr)) eq_refl).
  vm_compute. reflexivity.
Defined.

(** C9 on two arguments for a statement with one parameter: the count
    error comes back, the reset has been issued and [SQL] shows the new
    arguments. *)
Lemma Stmt_Exec_count_error_not_atomic_witness :
  let w := world0 (script [0] "" 0 1) in
  let o := Stmt_Exec stmt0 [VInt 1; VInt 2] w in
  result o = Some (Some (Exec_count_error 2 1), Stmt_set_args stmt0 " [1 2]")
  /\ events (final o)
     = events w ++ [Called (sqlite3_reset (Some 1%N));
                    Called (sqlite3_bind_parameter_count (Some 1%N))]
  /\ Stmt_SQL (Stmt_set_args stmt0 " [1 2]") = "select a,b from t [1 2]".
Proof.
  intros w o.
  assert (Hr : result o = Some (Some (Exec_count_error 2 1),
                                Stmt_set_args stmt0 " [1 2]"))
    by (vm_compute; reflexivity).
  split; [exact Hr|].
  destruct (Stmt_Exec_count_error_not_atomic stmt0 [VInt 1; VInt 2] w _
              (final o) 2 1 (Ret_result_final o _ Hr))
    as (_ & Hev & _ & _ & HSQL).
  split; [exact Hev|exact HSQL].
Defined.

(** C2 on a backup that is busy once and then done: the third [Step]
    returns the status 101 as its error, and [Run] returns nil, the
    destination's error code being 0. *)
Lemma Backup_Run_exit_witness :
  let w := world0 (script [0; 5; 101] "not an error" 0 0) in
  let turn := fun w0 : World Script =>
    final (Backup_Run_progress backup0 1000 (Some 4%N)
             (final (Backup_Step backup0 10 w0))) in
  let wk := turn (turn w) in
  let ws := final (Backup_Step backup0 10 wk) in
  Run_iterates backup0 10 1000 (Some 4%N) 2 w wk
  /\ Backup_Step backup0 10 wk = Ret (Some (Errno 101)) ws
  /\ Backup_Run 5 backup0 10 1000 (Some 4%N) w
     = Some (Ret None (after_call (sqlite3_errcode (Some 7%N)) ws)).
Proof.
  intros w turn wk ws.
  assert (Hit : Run_iterates backup0 10 1000 (Some 4%N) 2 w wk).
  { apply Run_iterates_S
      with (w1 := final (Backup_Step backup0 10 w)) (w2 := turn w);
      [by_running|by_running|].
    apply Run_iterates_S
      with (w1 := final (Backup_Step backup0 10 (turn w))) (w2 := wk);
      [by_running|by_running|].
    constructor. }
  assert (HStep : Backup_Step backup0 10 wk = Ret (Some (Errno 101)) ws)
    by by_running.
  assert (Hk : (2 < 5)%nat) by lia.
  split; [exact Hit|]. split; [exact HStep|].
  rewrite (proj2 (proj1 (Backup_Run_exit backup0 10 1000 (Some 4%N) 5 w _))
             (ex_intro _ 2%nat (ex_intro _ wk (ex_intro _ ws (ex_intro _ (Errno 101)
                (conj Hk (conj Hit (conj HStep eq_refl)))))))).
  reflexivity.
Defined.

(** C10 on a statement that has recorded the misuse error: a row is read
    and scanned, [Next] finds the end of the rows, the statement is reset
    and executed again, and [Error] still returns that error. *)
Lemma Stmt_Error_sticky_witness :
  let s := Stmt_set_err stmt0 (Some (Errno 21)) in
  let w := world0 {| script_status := [100; 101; 0; 0]; script_errmsg := "";
                     script_errcode := 0; script_nparams := 0;
                     script_columns := [[Byte.x31]; [Byte.x78]] |} in
  let w1 := final (Stmt_Next s w) in
  let w2 := final (Stmt_Scan (F := Z) s [TInt; TString] w1) in
  let w3 := final (Stmt_Next s w2) in
  let w4 := final (Stmt_Reset s w3) in
  let s5 := Stmt_set_args s " []" in
  let w5 := final (Stmt_Exec s [] w4) in
  Stmt_Error s <> None
  /\ rtc (Stmt_quiet_step (F := Z)) (s, w) (s5, w5)
  /\ result (Stmt_Scan (F := Z) s [TInt; TString] w1)
     = Some (None, [SInt 1; SString "x"])
  /\ result (Stmt_Next s w2) = Some (false, s)
  /\ Stmt_Error s5 = Some (Errno 21).
Proof.
  intros s w w1 w2 w3 w4 s5 w5.
  assert (Herr : Stmt_Error s <> None) by discriminate.
  assert (Hsteps : rtc (Stmt_quiet_step (F := Z)) (s, w) (s5, w5)).
  { apply rtc_l with (y := (s, w1)).
    { apply quiet_Next_Row with (r := true);
        [reflexivity|by_running]. }
    apply rtc_l with (y := (s, w2)).
    { apply quiet_Scan with (args := [TInt; TString])
                            (r := (None, [SInt 1; SString "x"])).
      by_running. }
    apply rtc_l with (y := (s, w3)).
    { apply quiet_Next_Done with (r := false);
        [reflexivity|by_running]. }
    apply rtc_l with (y := (s, w4)).
    { apply quiet_Reset with (e := None). by_running. }
    apply rtc_once.
    apply quiet_Exec with (args := []) (e := None). by_running. }
  split; [exact Herr|]. split; [exact Hsteps|].
  split; [reflexivity|]. split; [reflexivity|].
  exact (proj1 (proj1 (Stmt_Error_sticky (F := Z) s s5 w w5 Herr) Hsteps)).
Defined.

(** * Further properties of the wrapper *)

(** ** Errno.String *)

(** X1. [Errno.String] returns the text of the table for the codes 1 to
    26, 100 and 101 (12 and 15 included), the fallback with the decimal
    code for every other code, and never the empty string. *)
Theorem Errno_String_total (e : Z) :
  (1 <= e <= 26 \/ e = 100 \/ e = 101 ->
   errText !! e = Some (Errno_String e))
  /\ (~ (1 <= e <= 26 \/ e = 100 \/ e = 101) ->
      errText !! e = None /\ Errno_String e = "errno " +:+ pretty e)
  /\ Errno_String e <> "".
Proof.
  assert (Hin : 1 <= e <= 26 \/ e = 100 \/ e = 101 ->
                errText !! e = Some (Errno_String e) /\ Errno_String e <> "").
  { intros H.
    assert (Hcases : Exists (eq e)
      [1; 2; 3; 4; 5; 6; 7; 8; 9; 10; 11; 12; 13; 14; 15; 16; 17; 18; 19; 20;
       21; 22; 23; 24; 25; 26; 100; 101]).
    { destruct H as [[H1 H26]|[->| ->]].
      - assert (Hn : e = Z.of_nat (Z.to_nat e)) by lia.
        rewrite Hn. clear Hn.
        assert (Hle : (1 <= Z.to_nat e <= 26)%nat) by lia.
        destruct (Z.to_nat e) as [|n]; [lia|].
        do 26 (destruct n as [|n];
               [repeat (first [apply Exists_cons_hd; reflexivity
                              |apply Exists_cons_tl])|]).
        lia.
      - repeat (first [apply Exists_cons_hd; reflexivity
                      |apply Exists_cons_tl]).
      - repeat (first [apply Exists_cons_hd; reflexivity
                      |apply Exists_cons_tl]). }
    repeat (apply Exists_cons in Hcases as [->|Hcases];
            [split; [vm_compute; reflexivity|discriminate]|]).
    apply Exists_nil in Hcases. contradiction. }
  assert (Hout : ~ (1 <= e <= 26 \/ e = 100 \/ e = 101) ->
                 errText !! e = None /\ Errno_String e = "errno " +:+ pretty e).
  { intros H.
    assert (Hnone : errText !! e = None).
    { apply not_elem_of_list_to_map_1. cbn. intros Hel.
      repeat (apply elem_of_cons in Hel as [->|Hel]; [apply H; lia|]).
      apply elem_of_nil in Hel. exact Hel. }
    split; [exact Hnone|]. unfold Errno_String. rewrite Hnone. reflexivity. }
  split; [intros H; apply Hin, H|]. split; [exact Hout|].
  destruct (decide (1 <= e <= 26 \/ e = 100 \/ e = 101)) as [H|H].
  - apply Hin, H.
  - rewrite (proj2 (Hout H)). discriminate.
Qed.

Lemma Errno_String_total_witness :
  (1 <= 12 <= 26 \/ 12 = 100 \/ 12 = 101)
  /\ errText !! 12 = Some (Errno_String 12)
  /\ ~ (1 <= 27 <= 26 \/ 27 = 100 \/ 27 = 101)
  /\ Errno_String 27 = "errno 27"
  /\ Errno_String 12 = "NOT USED. Table or record not found".
Proof.
  assert (H12 : 1 <= 12 <= 26 \/ 12 = 100 \/ 12 = 101) by lia.
  assert (H27 : ~ (1 <= 27 <= 26 \/ 27 = 100 \/ 27 = 101)) by lia.
  split; [exact H12|].
  split; [exact (proj1 (Errno_String_total 12) H12)|].
  split; [exact H27|].
  split; [exact (proj2 (proj1 (proj2 (Errno_String_total 27)) H27))|].
  reflexivity.
Defined.

(** ** How the log grows *)

Lemma count_events_app (P : event -> bool) (l1 l2 : list event) :
  count_events P (l1 ++ l2) = (count_events P l1 + count_events P l2)%nat.
Proof. induction l1 as [|ev l1 IH]; cbn; [reflexivity|]. rewrite IH. lia. Qed.

Lemma count_events_none (P Q : event -> bool) (l : list event) :
  (forall ev : event, P ev = true -> Q ev = false) ->
  forallb P l = true -> count_events Q l = O.
Proof.
  intros HPQ. induction l as [|ev l IH]; cbn; [reflexivity|].
  intros [Hev Hl]%andb_prop. rewrite (HPQ _ Hev), (IH Hl). reflexivity.
Qed.

Lemma append_empty_r (t : string) : t +:+ "" = t.
Proof.
  induction t as [|a t IH]; [reflexivity|].
  change (String a (t +:+ "") = String a t). f_equal. exact IH.
Qed.

Section Frames.
Context {E : Type} `{!Engine E}.

Implicit Types (w : World E) (s : Stmt) (b : Backup) (c : option loc).
Implicit Types (P : event -> bool).

Lemma extends_log_refl P w : extends_log P w w.
Proof. split; [reflexivity|]. exists []. rewrite app_nil_r. auto. Qed.

Lemma extends_log_trans P w1 w2 w3 :
  extends_log P w1 w2 -> extends_log P w2 w3 -> extends_log P w1 w3.
Proof.
  intros [Hc1 (l1 & He1 & Hl1)] [Hc2 (l2 & He2 & Hl2)].
  split; [congruence|]. exists (l1 ++ l2).
  rewrite He2, He1, <- app_assoc, forallb_app, Hl1, Hl2. auto.
Qed.

Lemma extends_log_weaken P (Q : event -> bool) w w' :
  (forall ev : event, P ev = true -> Q ev = true) ->
  extends_log P w w' -> extends_log Q w w'.
Proof.
  intros HPQ [Hc (l & He & Hl)]. split; [exact Hc|]. exists l.
  split; [exact He|]. rewrite forallb_forall in *. auto.
Qed.

Lemma extends_log_call {R : Type} P (k : call R) w :
  P (Called k) = true -> extends_log P w (after_call k w).
Proof.
  intros HP. split; [reflexivity|]. exists [Called k].
  split; [reflexivity|]. cbn. rewrite HP. reflexivity.
Qed.

Lemma extends_log_count P (Q : event -> bool) w w' :
  (forall ev : event, P ev = true -> Q ev = false) ->
  extends_log P w w' ->
  count_events Q (events w') = count_events Q (events w).
Proof.
  intros HPQ [_ (l & -> & Hl)].
  rewrite count_events_app, (count_events_none P Q l HPQ Hl). lia.
Qed.

(** [Conn.error] always returns; it only ever asks for the message. *)
Lemma Conn_error_extends c (rv : Z) w :
  exists (e : os_Error) (w' : World E),
    Conn_error c rv w = Ret e w'
    /\ extends_log is_errmsg_call w w'
    /\ (rv <> 0 -> e <> None).
Proof.
  destruct (Conn_error c rv w) as [e w'|w'] eqn:He.
  - exists e, w'. split; [reflexivity|]. split.
    + rewrite Conn_error_run in He.
      destruct (Conn_handle c w) as [h|].
      * destruct (rv =? 0); [|destruct (rv =? 21)]; injection He as _ <-;
          first [apply extends_log_refl|apply extends_log_call; reflexivity].
      * injection He as _ <-. apply extends_log_refl.
    + intros Hrv. eapply Conn_error_nonzero; eassumption.
  - rewrite Conn_error_run in He.
    destruct (Conn_handle c w); [|discriminate].
    destruct (rv =? 0); [discriminate|]. destruct (rv =? 21); discriminate.
Qed.

Lemma errmsg_is_Exec_call (ev : event) :
  is_errmsg_call ev = true -> is_Exec_call ev = true.
Proof. destruct ev as [R k| |]; [destruct k|..]; cbn; congruence. Qed.

Lemma errmsg_is_Prepare_call (ev : event) :
  is_errmsg_call ev = true -> is_Prepare_call ev = true.
Proof. destruct ev as [R k| |]; [destruct k|..]; cbn; congruence. Qed.

Lemma spec_bind_is_Exec_call (stmt : ptr) (i : nat) (v : value) :
  is_Exec_call (spec_bind stmt i v) = true.
Proof. destruct v as [[|x l]|[|]| | | |]; reflexivity. Qed.

(** The loop of [Stmt.Exec] always returns. *)
Lemma Stmt_Exec_bind_extends (args : list value) s (i : nat) w :
  exists (e : os_Error) (w' : World E),
    Stmt_Exec_bind s (Z.of_nat i) args w = Ret e w'
    /\ extends_log is_Exec_call w w'.
Proof.
  revert i w. induction args as [|v rest IH]; intros i w.
  - exists None, w. split; [reflexivity|apply extends_log_refl].
  - destruct (Stmt_Exec_bind_cons s i v rest w) as (k & Hk & ->).
    assert (Hcall : extends_log is_Exec_call w (after_call k w)).
    { apply extends_log_call. rewrite <- Hk. apply spec_bind_is_Exec_call. }
    destruct (negb _).
    + destruct (Conn_error_extends (Stmt_c s) (answer k w) (after_call k w))
        as (e & w' & -> & Hext & _).
      exists e, w'. split; [reflexivity|].
      eapply extends_log_trans; [exact Hcall|].
      eapply extends_log_weaken; [apply errmsg_is_Exec_call|exact Hext].
    + destruct (IH (S i) (after_call k w)) as (e & w' & -> & Hext).
      exists e, w'. split; [reflexivity|].
      eapply extends_log_trans; eassumption.
Qed.

(** [Stmt.Exec] always returns, with the statement changed in its
    argument text only. *)
Lemma Stmt_Exec_extends s (args : list value) w :
  exists (e : os_Error) (w' : World E),
    Stmt_Exec s args w
    = Ret (e, Stmt_set_args s (" " +:+ fmt_v_slice args)) w'
    /\ extends_log is_Exec_call w w'.
Proof.
  rewrite Stmt_Exec_run.
  set (s1 := Stmt_set_args s (" " +:+ fmt_v_slice args)).
  set (k1 := sqlite3_reset (Stmt_stmt s)).
  set (k2 := sqlite3_bind_parameter_count (Stmt_stmt s)).
  assert (H1 : extends_log is_Exec_call w (after_call k1 w))
    by (apply extends_log_call; reflexivity).
  assert (H2 : extends_log is_Exec_call w (after_call k2 (after_call k1 w))).
  { eapply extends_log_trans; [exact H1|].
    apply extends_log_call. reflexivity. }
  destruct (negb (answer k1 w =? 0)).
  - destruct (Conn_error_extends (Stmt_c s) (answer k1 w) (after_call k1 w))
      as (e & w' & He & Hext & _).
    exists e, w'. unfold bind. rewrite He. split; [reflexivity|].
    eapply extends_log_trans; [exact H1|].
    eapply extends_log_weaken; [apply errmsg_is_Exec_call|exact Hext].
  - destruct (negb _).
    + eexists _, _. split; [reflexivity|exact H2].
    + destruct (Stmt_Exec_bind_extends args s1 O (after_call k2 (after_call k1 w)))
        as (e & w' & He & Hext).
      exists e, w'. unfold bind. change (Z.of_nat 0) with 0 in He. rewrite He.
      split; [reflexivity|]. eapply extends_log_trans; eassumption.
Qed.

(** [Stmt.Finalize] always returns; the finalize call comes first, and
    after it at most the query for the message. *)
Lemma Stmt_Finalize_extends s w :
  exists (e : os_Error) (w' : World E) (tail : list event),
    Stmt_Finalize s w = Ret e w'
    /\ conns w' = conns w
    /\ events w' = events w ++ Called (sqlite3_finalize (Stmt_stmt s)) :: tail
    /\ forallb is_errmsg_call tail = true
    /\ (e = None <-> answer (sqlite3_finalize (Stmt_stmt s)) w = 0).
Proof.
  unfold Stmt_Finalize. rewrite bind_C.
  set (k := sqlite3_finalize (Stmt_stmt s)).
  destruct (Z.eqb_spec (answer k w) 0) as [Hz|Hnz]; cbn [negb].
  - exists None, (after_call k w), []. repeat split; auto.
  - destruct (Conn_error_extends (Stmt_c s) (answer k w) (after_call k w))
      as (e & w' & He & [Hc (l & Hl & HP)] & Hne).
    exists e, w', l. split; [exact He|]. split; [exact Hc|].
    split; [rewrite Hl, events_after_call, <- app_assoc; reflexivity|].
    split; [exact HP|]. split; [intros ->; exfalso; apply (Hne Hnz); reflexivity
                               |intros Hz; contradiction].
Qed.

(** The two ways [Conn.Prepare] returns. *)
Lemma Conn_Prepare_cases c (cmd : string) w :
  (exists (e : error) (w' : World E),
     Conn_Prepare c cmd w = Ret (None, Some e) w'
     /\ extends_log is_Prepare_call w w'
     /\ (Conn_handle c w = None
         \/ exists h : N,
              Conn_handle c w = Some h
              /\ fst (answer (sqlite3_prepare_v2 (Some h) cmd
                                (Z.of_nat (String.length cmd) + 1)) w) <> 0))
  \/ (exists (s : Stmt) (w' : World E) (h : N),
        Conn_Prepare c cmd w = Ret (Some s, None) w'
        /\ extends_log is_Prepare_call w w'
        /\ Conn_handle c w = Some h
        /\ answer (sqlite3_prepare_v2 (Some h) cmd
                     (Z.of_nat (String.length cmd) + 1)) w
           = (0, Stmt_stmt s)
        /\ Stmt_c s = c /\ Stmt_sql s = cmd /\ Stmt_args s = ""
        /\ Stmt_err s = None).
Proof.
  unfold Conn_Prepare. rewrite (bind_run _ _ _ _ _ (open_db_run c w)).
  destruct (Conn_handle c w) as [h|] eqn:Hh.
  - rewrite bind_C.
    set (k := sqlite3_prepare_v2 (Some h) cmd (Z.of_nat (String.length cmd) + 1)).
    assert (Hk : extends_log is_Prepare_call w (after_call k w))
      by (apply extends_log_call; reflexivity).
    destruct (Z.eqb_spec (fst (answer k w)) 0) as [Hz|Hnz]; cbn [negb].
    + right. rewrite bind_C. eexists _, _, h. split; [reflexivity|].
      split; [|repeat split].
      * eapply extends_log_trans; [exact Hk|].
        apply extends_log_call. reflexivity.
      * cbn [Stmt_stmt]. fold k. rewrite <- Hz.
        destruct (answer k w); reflexivity.
    + left.
      destruct (Conn_error_extends c (fst (answer k w)) (after_call k w))
        as (e & w' & He & Hext & Hne).
      destruct e as [e|]; [|exfalso; apply (Hne Hnz); reflexivity].
      exists e, w'. unfold bind. rewrite He. split; [reflexivity|].
      split; [|right; exists h; auto].
      eapply extends_log_trans; [exact Hk|].
      eapply extends_log_weaken; [apply errmsg_is_Prepare_call|exact Hext].
  - left. eexists _, w. split; [reflexivity|].
    split; [apply extends_log_refl|left; reflexivity].
Qed.

(** X2. [Conn.Prepare] always returns, and returns either a statement and
    no error, or no statement and an error.  It returns a statement
    exactly when the connection is open and the engine's prepare reports
    status 0; the statement then holds the engine's handle, [SQL] returns
    the command text and [Error] nil. *)
Theorem Conn_Prepare_exclusive c (cmd : string) w :
  exists (r : option Stmt * os_Error) (w' : World E),
    Conn_Prepare c cmd w = Ret r w'
    /\ conns w' = conns w
    /\ ((fst r = None /\ snd r <> None
         /\ (Conn_handle c w = None
             \/ exists h : N,
                  Conn_handle c w = Some h
                  /\ fst (answer (sqlite3_prepare_v2 (Some h) cmd
                                    (Z.of_nat (String.length cmd) + 1)) w)
                     <> 0))
        \/ (exists (s : Stmt) (h : N),
              r = (Some s, None)
              /\ Conn_handle c w = Some h
              /\ answer (sqlite3_prepare_v2 (Some h) cmd
                           (Z.of_nat (String.length cmd) + 1)) w
                 = (0, Stmt_stmt s)
              /\ Stmt_c s = c
              /\ Stmt_SQL s = cmd
              /\ Stmt_Error s = None)).
Proof.
  destruct (Conn_Prepare_cases c cmd w)
    as [(e & w' & HP & [Hc _] & Hwhy)
       |(s & w' & h & HP & [Hc _] & Hh & Hk & Hsc & Hsql & Hargs & Herr)].
  - exists (None, Some e), w'. split; [exact HP|]. split; [exact Hc|].
    left. split; [reflexivity|]. split; [discriminate|exact Hwhy].
  - exists (Some s, None), w'. split; [exact HP|]. split; [exact Hc|].
    right. exists s, h. repeat split; try assumption.
    unfold Stmt_SQL. rewrite Hsql, Hargs. apply append_empty_r.
Qed.

(** [Conn.Exec] once [Prepare] and [Stmt.Exec] have returned. *)
Lemma Conn_Exec_prepared c (cmd : string) (args : list value) w
  s (w1 : World E) (e : os_Error) (s2 : Stmt) (w2 : World E) :
  Conn_Prepare c cmd w = Ret (Some s, None) w1 ->
  Stmt_Exec s args w1 = Ret (e, s2) w2 ->
  Conn_Exec c cmd args w
  = match e with
    | Some err => bind (Stmt_Finalize s2) (fun _ => ret (Some err)) w2
    | None =>
        let k := sqlite3_step (Stmt_stmt s2) in
        if negb (answer k w2 =? Done) then
          bind (Conn_error c (answer k w2))
               (fun e' => bind (Stmt_Finalize s2) (fun _ => ret e'))
               (after_call k w2)
        else bind (Stmt_Finalize s2) (fun _ => ret None) (after_call k w2)
    end.
Proof.
  intros HP HE. unfold Conn_Exec.
  rewrite (bind_run _ _ _ _ _ HP). cbn beta iota.
  rewrite (bind_run _ _ _ _ _ HE). cbn [fst snd].
  destruct e as [err|]; [reflexivity|].
  rewrite bind_C. destruct (negb _); reflexivity.
Qed.

Lemma Conn_handle_conns c w w' :
  conns w' = conns w -> Conn_handle c w' = Conn_handle c w.
Proof. intros H. destruct c as [l|]; cbn; [rewrite H|]; reflexivity. Qed.

Lemma Exec_or_step_not_finalize (ev : event) :
  is_Exec_call ev || is_step_call ev = true -> is_finalize_call ev = false.
Proof. destruct ev as [R k| |]; [destruct k|..]; cbn; congruence. Qed.

(** [Conn.Exec] after a successful [Prepare]: what it returns, and its
    log, which ends with the finalize call and at most a query for the
    message after it. *)
Lemma Conn_Exec_prepared_shape c (cmd : string) (args : list value) w
  s (w1 : World E) :
  Conn_Prepare c cmd w = Ret (Some s, None) w1 ->
  exists (e2 r : os_Error) (w2 w' : World E) (l tail : list event),
    Stmt_Exec s args w1
    = Ret (e2, Stmt_set_args s (" " +:+ fmt_v_slice args)) w2
    /\ Conn_Exec c cmd args w = Ret r w'
    /\ conns w' = conns w1
    /\ events w'
       = events w1 ++ l ++ Called (sqlite3_finalize (Stmt_stmt s)) :: tail
    /\ forallb (fun ev => is_Exec_call ev || is_step_call ev) l = true
    /\ forallb is_errmsg_call tail = true
    /\ (r = None <->
        e2 = None
        /\ (answer (sqlite3_step (Stmt_stmt s)) w2 = Done
            \/ (answer (sqlite3_step (Stmt_stmt s)) w2 = 0
                /\ Conn_handle c w1 <> None))).
Proof.
  intros HP.
  destruct (Stmt_Exec_extends s args w1) as (e2 & w2 & HE & [Hc2 (l2 & Hl2 & HP2)]).
  rewrite (Conn_Exec_prepared _ _ _ _ _ _ _ _ _ HP HE).
  set (s2 := Stmt_set_args s (" " +:+ fmt_v_slice args)) in *.
  change (Stmt_stmt s2) with (Stmt_stmt s).
  assert (HP2' : forallb (fun ev => is_Exec_call ev || is_step_call ev) l2 = true).
  { rewrite forallb_forall in *. intros ev Hev. rewrite (HP2 ev Hev). reflexivity. }
  set (k := sqlite3_step (Stmt_stmt s)).
  destruct e2 as [err|].
  - destruct (Stmt_Finalize_extends s2 w2) as (ef & wf & tail & HF & Hcf & Hef & Htail & _).
    exists (Some err), (Some err), w2, wf, l2, tail.
    unfold bind. rewrite HF. split; [exact HE|]. split; [reflexivity|].
    split; [congruence|]. split; [rewrite Hef, Hl2, <- app_assoc; reflexivity|].
    split; [exact HP2'|]. split; [exact Htail|].
    split; [discriminate|intros [H _]; discriminate].
  - cbv zeta.
    assert (Hl3 : forallb (fun ev => is_Exec_call ev || is_step_call ev)
                    (l2 ++ [Called k]) = true)
      by (rewrite forallb_app, HP2'; reflexivity).
    destruct (Z.eqb_spec (answer k w2) Done) as [HD|HnD]; cbn [negb].
    + destruct (Stmt_Finalize_extends s2 (after_call k w2))
        as (ef & wf & tail & HF & Hcf & Hef & Htail & _).
      exists None, None, w2, wf, (l2 ++ [Called k]), tail.
      unfold bind. rewrite HF. split; [exact HE|]. split; [reflexivity|].
      split; [rewrite Hcf; exact Hc2|].
      split; [rewrite Hef, events_after_call, Hl2, <- !app_assoc; reflexivity|].
      split; [exact Hl3|]. split; [exact Htail|]. split; auto.
    + destruct (Conn_error_extends c (answer k w2) (after_call k w2))
        as (e3 & w3 & He3 & [Hc3 (l3 & Hl3' & HP3)] & Hne3).
      destruct (Stmt_Finalize_extends s2 w3)
        as (ef & wf & tail & HF & Hcf & Hef & Htail & _).
      exists None, e3, w2, wf, (l2 ++ [Called k] ++ l3), tail.
      unfold bind. rewrite He3, HF. split; [exact HE|]. split; [reflexivity|].
      split; [rewrite Hcf, Hc3; exact Hc2|].
      split; [rewrite Hef, Hl3', events_after_call, Hl2, <- !app_assoc;
              reflexivity|].
      split.
      { assert (HP3' : forallb (fun ev => is_Exec_call ev || is_step_call ev)
                         l3 = true).
        { rewrite forallb_forall in *. intros ev Hev.
          rewrite (errmsg_is_Exec_call ev (HP3 ev Hev)). reflexivity. }
        rewrite !forallb_app, HP2', HP3'. reflexivity. }
      split; [exact Htail|].
      rewrite Conn_error_run in He3.
      rewrite (Conn_handle_conns c w1 (after_call k w2) Hc2) in He3.
      split.
      * intros ->. split; [reflexivity|]. right.
        destruct (Conn_handle c w1) as [h|]; [|discriminate].
        destruct (Z.eqb_spec (answer k w2) 0) as [Hz|Hnz].
        -- split; [exact Hz|discriminate].
        -- exfalso. apply (Hne3 Hnz). reflexivity.
      * intros [_ [HD|[Hz Hh]]]; [contradiction|].
        destruct (Conn_handle c w1) as [h|]; [|contradiction].
        rewrite Hz in He3. cbn in He3. congruence.
Qed.

(** X3. [Conn.Exec] always returns.  It returns nil exactly when
    [Prepare] gives a statement, [Stmt.Exec] on it returns nil, and the
    one step reports the end of the rows (or the status 0, which
    [Conn.error] renders as nil); what the deferred [Finalize] reports
    does not count. *)
Theorem Conn_Exec_nil_iff c (cmd : string) (args : list value) w :
  (exists (e : os_Error) (w' : World E), Conn_Exec c cmd args w = Ret e w')
  /\ ((exists w' : World E, Conn_Exec c cmd args w = Ret None w') <->
      exists (s s2 : Stmt) (w1 w2 : World E),
        Conn_Prepare c cmd w = Ret (Some s, None) w1
        /\ Stmt_Exec s args w1 = Ret (None, s2) w2
        /\ (answer (sqlite3_step (Stmt_stmt s2)) w2 = Done
            \/ answer (sqlite3_step (Stmt_stmt s2)) w2 = 0)).
Proof.
  destruct (Conn_Prepare_cases c cmd w)
    as [(e & w1 & HP & _)|(s & w1 & h & HP & [Hc1 _] & Hh & _)].
  - assert (HX : Conn_Exec c cmd args w = Ret (Some e) w1).
    { unfold Conn_Exec. rewrite (bind_run _ _ _ _ _ HP). reflexivity. }
    split; [eauto|]. rewrite HX. split.
    + intros [w' [=]].
    + intros (s & s2 & w1' & w2 & HP' & _). congruence.
  - destruct (Conn_Exec_prepared_shape c cmd args w s w1 HP)
      as (e2 & r & w2 & w' & l & tail & HE & HX & _ & _ & _ & _ & Hr).
    split; [eauto|]. rewrite HX.
    rewrite (Conn_handle_conns c w w1 Hc1), Hh in Hr. split.
    + intros [w'' [= -> _]]. destruct (proj1 Hr eq_refl) as [-> Hrv].
      exists s, (Stmt_set_args s (" " +:+ fmt_v_slice args)), w1, w2.
      split; [exact HP|]. split; [exact HE|]. tauto.
    + intros (s0 & s2 & w1' & w2' & HP' & HE' & Hrv).
      rewrite HP in HP'. injection HP' as <- <-.
      rewrite HE in HE'. injection HE' as -> <- <-.
      exists w'. f_equal. apply Hr. split; [reflexivity|].
      destruct Hrv as [HD|Hz]; [left; exact HD|right].
      split; [exact Hz|discriminate].
Qed.

(** X4. [Conn.Exec] finalizes the statement it prepared exactly once,
    however it returns, as its last call but for a query for the engine's
    message; when [Prepare] gives no statement nothing is finalized. *)
Theorem Conn_Exec_finalizes_once c (cmd : string) (args : list value) w
  (e : os_Error) (w' : World E) :
  Conn_Exec c cmd args w = Ret e w' ->
  (forall (s : Stmt) (w1 : World E),
     Conn_Prepare c cmd w = Ret (Some s, None) w1 ->
     count_events is_finalize_call (events w')
     = S (count_events is_finalize_call (events w))
     /\ exists (l tail : list event),
          events w'
          = events w ++ l ++ Called (sqlite3_finalize (Stmt_stmt s)) :: tail
          /\ forallb is_errmsg_call tail = true)
  /\ (forall (e1 : error) (w1 : World E),
       Conn_Prepare c cmd w = Ret (None, Some e1) w1 ->
       count_events is_finalize_call (events w')
       = count_events is_finalize_call (events w)).
Proof.
  intros HX.
  assert (Hprep : forall ev : event,
            is_Prepare_call ev = true -> is_finalize_call ev = false).
  { intros [R k| |]; [destruct k|..]; cbn; congruence. }
  assert (Herrmsg : forall ev : event,
            is_errmsg_call ev = true -> is_finalize_call ev = false).
  { intros [R k| |]; [destruct k|..]; cbn; congruence. }
  destruct (Conn_Prepare_cases c cmd w)
    as [(e1 & w1 & HP & Hext & _)|(s & w1 & h & HP & Hext & _)].
  - split; [intros s w1' HP'; congruence|].
    intros _ _ _.
    assert (HX' : Conn_Exec c cmd args w = Ret (Some e1) w1).
    { unfold Conn_Exec. rewrite (bind_run _ _ _ _ _ HP). reflexivity. }
    rewrite HX in HX'. injection HX' as _ ->.
    apply (extends_log_count _ _ _ _ Hprep Hext).
  - split; [|intros e1 w1' HP'; congruence].
    intros s0 w1' HP'. rewrite HP in HP'. injection HP' as <- <-.
    destruct (Conn_Exec_prepared_shape c cmd args w s w1 HP)
      as (e2 & r & w2 & w0 & l & tail & _ & HX' & _ & Hev & Hl & Htail & _).
    rewrite HX in HX'. injection HX' as _ <-.
    pose proof (extends_log_count _ _ _ _ Hprep Hext) as Hcount.
    destruct Hext as [_ (l1 & Hl1 & _)].
    split.
    + rewrite Hev, !count_events_app. cbn [count_events is_finalize_call].
      rewrite (count_events_none _ _ l Exec_or_step_not_finalize Hl).
      rewrite (count_events_none _ _ tail Herrmsg Htail). lia.
    + exists (l1 ++ l), tail. split; [|exact Htail].
      rewrite Hev, Hl1, <- !app_assoc. reflexivity.
Qed.

(** ** Conn.Close *)

Lemma Conn_Close_run c w :
  Conn_Close c w
  = match c, Conn_handle c w with
    | Some l, Some h =>
        let k := sqlite3_close (Some h) in
        if negb (answer k w =? 0)
        then Conn_error c (answer k w) (after_call k w)
        else Ret None
               {| engine := engine (after_call k w);
                  conns := fun l' => if N.eqb l' l then {| Conn_db := None |}
                                     else conns w l';
                  events := events w ++ [Called k] |}
    | _, _ => Ret (Some (NewError "nil sqlite database")) w
    end.
Proof.
  unfold Conn_Close. rewrite (bind_run _ _ _ _ _ (open_db_run c w)).
  destruct c as [l|]; [|reflexivity].
  destruct (Conn_handle (Some l) w) as [h|]; [|reflexivity].
  rewrite bind_C. destruct (negb _); reflexivity.
Qed.

(** [Conn.Close] returns nil only when it has closed the connection. *)
Lemma Conn_Close_nil c w (w1 : World E) :
  Conn_Close c w = Ret None w1 ->
  Conn_handle c w1 = None
  /\ exists h : N,
       Conn_handle c w = Some h
       /\ answer (sqlite3_close (Some h)) w = 0
       /\ events w1 = events w ++ [Called (sqlite3_close (Some h))].
Proof.
  rewrite Conn_Close_run. destruct c as [l|]; [|discriminate].
  destruct (Conn_handle (Some l) w) as [h|] eqn:Hh; [|discriminate].
  cbv zeta. destruct (Z.eqb_spec (answer (sqlite3_close (Some h)) w) 0)
    as [Hz|Hnz]; cbn [negb].
  - intros [= <-]. split; [cbn; rewrite N.eqb_refl; reflexivity|].
    exists h. auto.
  - intros He. exfalso. eapply Conn_error_nonzero; [exact Hnz|exact He|reflexivity].
Qed.

(** X5. Closing an open connection whose engine close reports status 0
    returns nil, clears the handle of that connection and of no other,
    and calls [sqlite3_close] once; a second [Close], and a [Prepare], then
    return the nil-database error without calling the engine. *)
Theorem Conn_Close_twice c (h : N) w :
  Conn_handle c w = Some h ->
  answer (sqlite3_close (Some h)) w = 0 ->
  exists w1 : World E,
    Conn_Close c w = Ret None w1
    /\ Conn_handle c w1 = None
    /\ (forall c' : option loc, c' <> c -> Conn_handle c' w1 = Conn_handle c' w)
    /\ events w1 = events w ++ [Called (sqlite3_close (Some h))]
    /\ Conn_Close c w1 = Ret (Some (NewError "nil sqlite database")) w1
    /\ forall cmd : string,
         Conn_Prepare c cmd w1
         = Ret (None, Some (NewError "nil sqlite database")) w1.
Proof.
  intros Hh Hz. destruct c as [l|]; [|discriminate].
  rewrite Conn_Close_run, Hh. cbv zeta. rewrite Hz. cbn [Z.eqb negb].
  eexists. split; [reflexivity|].
  assert (Hclosed : forall w1 : World E, Conn_handle (Some l) w1 = None ->
    Conn_Close (Some l) w1 = Ret (Some (NewError "nil sqlite database")) w1
    /\ forall cmd : string,
         Conn_Prepare (Some l) cmd w1
         = Ret (None, Some (NewError "nil sqlite database")) w1).
  { intros w1 H1. split.
    - rewrite Conn_Close_run, H1. reflexivity.
    - intros cmd. unfold Conn_Prepare.
      rewrite (bind_run _ _ _ _ _ (open_db_run _ w1)), H1. reflexivity. }
  assert (H1 : Conn_handle (Some l)
                 {| engine := engine (after_call (sqlite3_close (Some h)) w);
                    conns := fun l' => if N.eqb l' l then {| Conn_db := None |}
                                       else conns w l';
                    events := events w ++ [Called (sqlite3_close (Some h))] |}
               = None)
    by (cbn; rewrite N.eqb_refl; reflexivity).
  split; [exact H1|]. split; [|split; [reflexivity|apply Hclosed, H1]].
  intros [l'|] Hne; [|reflexivity]. cbn.
  destruct (N.eqb_spec l' l) as [->|_]; [contradiction|reflexivity].
Qed.

(** X6. When the engine's close reports an error, [Conn.Close] returns it
    rendered by [Conn.error] and leaves every connection as it was: the
    handle is kept, so the close can be tried again. *)
Theorem Conn_Close_failure c (h : N) w :
  Conn_handle c w = Some h ->
  answer (sqlite3_close (Some h)) w <> 0 ->
  exists (e : error) (w1 : World E),
    Conn_Close c w = Ret (Some e) w1
    /\ Conn_error c (answer (sqlite3_close (Some h)) w)
         (after_call (sqlite3_close (Some h)) w) = Ret (Some e) w1
    /\ conns w1 = conns w
    /\ Conn_handle c w1 = Some h.
Proof.
  intros Hh Hnz. destruct c as [l|]; [|discriminate].
  rewrite Conn_Close_run, Hh. cbv zeta.
  destruct (Z.eqb_spec (answer (sqlite3_close (Some h)) w) 0);
    [contradiction|]. cbn [negb].
  destruct (Conn_error_extends (Some l) (answer (sqlite3_close (Some h)) w)
              (after_call (sqlite3_close (Some h)) w))
    as (e & w1 & He & [Hc _] & Hne).
  destruct e as [e|]; [|exfalso; apply (Hne Hnz); reflexivity].
  exists e, w1. split; [exact He|]. split; [exact He|].
  split; [exact Hc|]. rewrite (Conn_handle_conns _ _ _ Hc). exact Hh.
Qed.

(** X7. Once its connection is closed, a statement renders every engine
    error as the nil-database error, without asking the engine for a
    message: a failing [Next] records it, and a failing [Finalize] and an
    [Exec] whose reset fails return it. *)
Theorem Stmt_after_Close s (args : list value) w (w1 w2 : World E) :
  Conn_Close (Stmt_c s) w = Ret None w1 ->
  conns w2 = conns w1 ->
  let nildb := Some (NewError "nil sqlite database") in
  (let k := sqlite3_step (Stmt_stmt s) in
   answer k w2 <> Row -> answer k w2 <> Done ->
   Stmt_Next s w2 = Ret (false, Stmt_set_err s nildb) (after_call k w2))
  /\ (let k := sqlite3_finalize (Stmt_stmt s) in
      answer k w2 <> 0 ->
      Stmt_Finalize s w2 = Ret nildb (after_call k w2))
  /\ (let k := sqlite3_reset (Stmt_stmt s) in
      answer k w2 <> 0 ->
      Stmt_Exec s args w2
      = Ret (nildb, Stmt_set_args s (" " +:+ fmt_v_slice args))
            (after_call k w2)).
Proof.
  intros HClose Hconns nildb.
  destruct (Conn_Close_nil _ _ _ HClose) as [Hclosed _].
  assert (Herr : forall {R : Type} (k : call R) (rv : Z),
            Conn_error (Stmt_c s) rv (after_call k w2)
            = Ret nildb (after_call k w2)).
  { intros R k rv. rewrite Conn_error_run, Conn_handle_after_call.
    rewrite (Conn_handle_conns _ _ _ Hconns), Hclosed. reflexivity. }
  split; [|split]; intros k.
  - intros HRow HDone. unfold Stmt_Next. rewrite bind_C. fold k.
    destruct (Z.eqb_spec (answer k w2) Row); [contradiction|].
    destruct (Z.eqb_spec (answer k w2) Done); [contradiction|]. cbn [negb].
    unfold bind. rewrite Herr. reflexivity.
  - intros Hnz. unfold Stmt_Finalize. rewrite bind_C. fold k.
    destruct (Z.eqb_spec (answer k w2) 0); [contradiction|]. cbn [negb].
    apply Herr.
  - intros Hnz. rewrite Stmt_Exec_run. fold k.
    destruct (Z.eqb_spec (answer k w2) 0); [contradiction|]. cbn [negb].
    unfold bind. rewrite Herr. reflexivity.
Qed.

End Frames.

(** ** Stmt.Scan *)

Section Scan.
Context {E : Type} `{!Engine E} {F : Type} `{!Strconv F}.

Implicit Types (w : World E) (s : Stmt).


(** One turn of the loop of [Stmt.Scan], on the bytes [data] it reads. *)
Lemma Stmt_Scan_loop_cons s (i : Z) (t : target) (rest : list target) w :
  let k1 := sqlite3_column_bytes (Stmt_stmt s) i in
  let k2 := sqlite3_column_blob (Stmt_stmt s) i in
  let w2 := after_call k2 (after_call k1 w) in
  let n := answer k1 w in
  let p := answer k2 (after_call k1 w) in
  Stmt_Scan_loop (F := F) s i (t :: rest) w
  = match p with
    | None =>
        if 0 <? n then Ret (Some (NewError "got nil blob"), []) w2
        else match Stmt_Scan_convert i t [] with
             | inr e => Ret (Some e, []) w2
             | inl x =>
                 bind (Stmt_Scan_loop s (i + 1) rest)
                      (fun r => ret (fst r, x :: snd r)) w2
             end
    | Some mem =>
        match Stmt_Scan_convert i t
                (if 0 <? n then take (Z.to_nat n) mem else []) with
        | inr e => Ret (Some e, []) w2
        | inl x =>
            bind (Stmt_Scan_loop s (i + 1) rest)
                 (fun r => ret (fst r, x :: snd r)) w2
        end
    end.
Proof.
  cbv zeta. cbn [Stmt_Scan_loop]. rewrite !bind_C.
  destruct (answer (sqlite3_column_blob _ _) _) as [mem|].
  - destruct (Stmt_Scan_convert _ _ _); reflexivity.
  - destruct (0 <? _); [reflexivity|].
    destruct (Stmt_Scan_convert _ _ _); reflexivity.
Qed.



(** [Stmt.Scan] into one destination, for a row of one column that holds
    the bytes [d]: the engine reports their number and, unless there are
    none, a pointer to memory that starts with them. *)
Lemma Stmt_Scan_single s (t : target) (d mem : list Byte.byte) w :
  let k0 := sqlite3_column_count (Stmt_stmt s) in
  let k1 := sqlite3_column_bytes (Stmt_stmt s) 0 in
  let k2 := sqlite3_column_blob (Stmt_stmt s) 0 in
  let w1 := after_call k1 (after_call k0 w) in
  answer k0 w = 1 ->
  answer k1 (after_call k0 w) = Z.of_nat (length d) ->
  (d <> [] -> answer k2 w1 = Some (d ++ mem)) ->
  Stmt_Scan (F := F) s [t] w
  = Ret (match Stmt_Scan_convert 0 t d with
         | inl x => (None, [x])
         | inr e => (Some e, [])
         end) (after_call k2 w1).
Proof.
  intros k0 k1 k2 w1 H0 H1 H2. unfold Stmt_Scan. rewrite bind_C. fold k0.
  rewrite H0. change (negb (1 =? Z.of_nat (length [t]))) with false.
  cbv iota. rewrite Stmt_Scan_loop_cons. cbv zeta. fold k1 k2 w1. rewrite H1.
  destruct d as [|x d].
  - change (0 <? Z.of_nat (length (@nil Byte.byte))) with false. cbv iota.
    destruct (answer k2 w1); destruct (Stmt_Scan_convert 0 t []); reflexivity.
  - rewrite (H2 ltac:(discriminate)).
    assert (Hpos : (0 <? Z.of_nat (length (x :: d))) = true)
      by (apply Z.ltb_lt; cbn [length]; lia).
    rewrite Hpos, Nat2Z.id, take_app_length.
    destruct (Stmt_Scan_convert 0 t (x :: d)); reflexivity.
Qed.

(** [Stmt.Exec]'s loop on its last argument: after the bind call [k] it
    returns nil exactly when the engine accepts the call. *)
Lemma Stmt_Exec_bind_last s (k : call Z) w :
  exists (e : os_Error) (w' : World E) (tail : list event),
    bind (C k) (fun rv => if negb (rv =? 0) then Conn_error (Stmt_c s) rv
                          else Stmt_Exec_bind s (0 + 1) []) w
    = Ret e w'
    /\ events w' = events w ++ Called k :: tail
    /\ (e = None <-> answer k w = 0).
Proof.
  rewrite bind_C_if.
  destruct (Z.eqb_spec (answer k w) 0) as [Hz|Hnz]; cbn [negb].
  - exists None, (after_call k w), []. repeat split; auto.
  - destruct (Conn_error_extends (Stmt_c s) (answer k w) (after_call k w))
      as (e & w' & He & [_ (l & Hl & _)] & Hne).
    exists e, w', l. split; [exact He|].
    split; [rewrite Hl, events_after_call, <- app_assoc; reflexivity|].
    split; [intros ->; exfalso; apply (Hne Hnz); reflexivity|].
    intros Hz. contradiction.
Qed.

Lemma length_list_byte_of_string (t : string) :
  length (list_byte_of_string t) = String.length t.
Proof. induction t as [|a t IH]; cbn; [reflexivity|]. f_equal. exact IH. Qed.

(** X9. A byte sequence goes through the engine unchanged.  [Stmt.Exec]
    binds it as a blob of its length, by a pointer that is NULL when the
    sequence is empty; when a row of one column gives back that length and
    that pointer, [Stmt.Scan] into a byte-sequence destination returns nil
    and stores the same bytes, the empty sequence included. *)
Theorem blob_round_trip (s1 s2 : Stmt) (v : list Byte.byte) (w wr : World E) :
  let p := if 0 <? Z.of_nat (length v) then Some v else None in
  let k := my_bind_blob (Stmt_stmt s1) 1 p (Z.of_nat (length v)) in
  let k0 := sqlite3_column_count (Stmt_stmt s2) in
  let k1 := sqlite3_column_bytes (Stmt_stmt s2) 0 in
  let k2 := sqlite3_column_blob (Stmt_stmt s2) 0 in
  let w1 := after_call k1 (after_call k0 wr) in
  (exists (e : os_Error) (w' : World E) (tail : list event),
     Stmt_Exec_bind s1 0 [VBytes v] w = Ret e w'
     /\ events w' = events w ++ Called k :: tail
     /\ (e = None <-> answer k w = 0))
  /\ (answer k0 wr = 1 ->
      answer k1 (after_call k0 wr) = Z.of_nat (length v) ->
      answer k2 w1 = p ->
      Stmt_Scan (F := F) s2 [TBytes] wr
      = Ret (None, [SBytes v]) (after_call k2 w1)).
Proof.
  intros p k k0 k1 k2 w1. split.
  - exact (Stmt_Exec_bind_last s1 k w).
  - intros H0 H1 H2.
    rewrite (Stmt_Scan_single s2 TBytes v [] wr H0 H1); [reflexivity|].
    intros Hne. rewrite app_nil_r. etransitivity; [exact H2|]. subst p.
    destruct v; [contradiction|reflexivity].
Qed.

(** X10. A boolean goes through the engine unchanged.  [Stmt.Exec] binds
    it as the one-character text 1 or 0; when a row of one column gives
    back that character, [Stmt.Scan] into a boolean destination returns
    nil and stores the same boolean. *)
Theorem bool_round_trip (s1 s2 : Stmt) (v : bool) (mem : list Byte.byte)
  (w wr : World E) :
  let str := if v then "1" else "0" in
  let k := my_bind_text (Stmt_stmt s1) 1 str 1 in
  let k0 := sqlite3_column_count (Stmt_stmt s2) in
  let k1 := sqlite3_column_bytes (Stmt_stmt s2) 0 in
  let k2 := sqlite3_column_blob (Stmt_stmt s2) 0 in
  let w1 := after_call k1 (after_call k0 wr) in
  (exists (e : os_Error) (w' : World E) (tail : list event),
     Stmt_Exec_bind s1 0 [VBool v] w = Ret e w'
     /\ events w' = events w ++ Called k :: tail
     /\ (e = None <-> answer k w = 0))
  /\ (answer k0 wr = 1 ->
      answer k1 (after_call k0 wr) = 1 ->
      answer k2 w1 = Some (list_byte_of_string str ++ mem) ->
      Stmt_Scan (F := F) s2 [TBool] wr
      = Ret (None, [SBool v]) (after_call k2 w1)).
Proof.
  intros str k k0 k1 k2 w1. split.
  - subst k str. destruct v; exact (Stmt_Exec_bind_last s1 _ w).
  - intros H0 H1 H2.
    rewrite (Stmt_Scan_single s2 TBool (list_byte_of_string str) mem wr H0).
    + subst str. destruct v; reflexivity.
    + etransitivity; [exact H1|]. subst str. destruct v; reflexivity.
    + intros _. exact H2.
Qed.

(** X11. A string goes through the engine unchanged.  [Stmt.Exec] binds
    it as text of its length; when a row of one column gives back that
    length and, unless the string is empty, memory that starts with its
    bytes, [Stmt.Scan] into a string destination returns nil and stores
    the same string. *)
Theorem string_round_trip (s1 s2 : Stmt) (v : string) (mem : list Byte.byte)
  (w wr : World E) :
  let k := my_bind_text (Stmt_stmt s1) 1 v (Z.of_nat (String.length v)) in
  let k0 := sqlite3_column_count (Stmt_stmt s2) in
  let k1 := sqlite3_column_bytes (Stmt_stmt s2) 0 in
  let k2 := sqlite3_column_blob (Stmt_stmt s2) 0 in
  let w1 := after_call k1 (after_call k0 wr) in
  (exists (e : os_Error) (w' : World E) (tail : list event),
     Stmt_Exec_bind s1 0 [VString v] w = Ret e w'
     /\ events w' = events w ++ Called k :: tail
     /\ (e = None <-> answer k w = 0))
  /\ (answer k0 wr = 1 ->
      answer k1 (after_call k0 wr) = Z.of_nat (String.length v) ->
      (v <> "" -> answer k2 w1 = Some (list_byte_of_string v ++ mem)) ->
      Stmt_Scan (F := F) s2 [TString] wr
      = Ret (None, [SString v]) (after_call k2 w1)).
Proof.
  intros k k0 k1 k2 w1. split.
  - exact (Stmt_Exec_bind_last s1 k w).
  - intros H0 H1 H2.
    rewrite (Stmt_Scan_single s2 TString (list_byte_of_string v) mem wr H0).
    + cbn [Stmt_Scan_convert]. rewrite string_of_list_byte_of_string.
      reflexivity.
    + etransitivity; [exact H1|].
      rewrite length_list_byte_of_string. reflexivity.
    + intros Hne. apply H2. intros ->. apply Hne. reflexivity.
Qed.

End Scan.

(** ** Backup sessions *)

Section Backups.
Context {E : Type} `{!Engine E}.

Implicit Types (w : World E) (b : Backup).

Lemma Backup_Run_progress_events b (sleepNs : Z) (c : option N) w :
  exists (w' : World E) (l : list event),
    Backup_Run_progress b sleepNs c w = Ret tt w'
    /\ conns w' = conns w
    /\ events w' = events w ++ l ++ [Slept sleepNs]
    /\ count_events is_backup_step_call l = O
    /\ count_events is_sleep l = O
    /\ count_events is_send l = match c with Some _ => 1%nat | None => O end
    /\ count_events is_status_call l = match c with Some _ => 2%nat | None => O end.
Proof.
  unfold Backup_Run_progress, Backup_Status, bind.
  destruct c as [ch|].
  - rewrite C_run, C_run. cbn [ret emit].
    eexists _, [_; _; _]. split; [reflexivity|]. split; [reflexivity|].
    split; [cbn [events after_call]; rewrite <- !app_assoc; reflexivity|].
    repeat split.
  - eexists _, []. repeat split.
Qed.

Lemma Backup_Run_return_extends b (l : loc) w :
  Backup_dst b = Some l ->
  exists (r : os_Error) (w' : World E),
    Backup_Run_return b w = Ret r w' /\ extends_log is_error_query w w'.
Proof.
  intros Hdst. unfold Backup_Run_return. rewrite Hdst.
  unfold load_db. cbn [bind]. rewrite bind_C.
  set (k := sqlite3_errcode (Conn_db (conns w l))).
  destruct (Conn_error_extends (Some l) (answer k w) (after_call k w))
    as (r & w' & Hr & Hext & _).
  exists r, w'. split; [exact Hr|].
  apply extends_log_trans with (w2 := after_call k w);
    [apply extends_log_call; reflexivity|].
  eapply extends_log_weaken; [|exact Hext].
  intros [R q| |]; [destruct q|..]; cbn; congruence.
Qed.


(** X12. When [Backup.Run] leaves its loop after [k] turns whose [Step]
    returned nil, it has called the engine's backup step [k + 1] times and
    slept [k] times; with a channel it has sent [k] snapshots, each after
    querying the two counters; without one it has sent nothing and
    queried nothing.  No connection has changed. *)
Theorem Backup_Run_counts b (npage sleepNs : Z) (c : option N)
  (fuel : nat) w (o : outcome E os_Error) :
  Backup_Run fuel b npage sleepNs c w = Some o ->
  exists k : nat,
    (k < fuel)%nat
    /\ conns (final o) = conns w
    /\ count_events is_backup_step_call (events (final o))
       = (count_events is_backup_step_call (events w) + S k)%nat
    /\ count_events is_sleep (events (final o))
       = (count_events is_sleep (events w) + k)%nat
    /\ count_events is_send (events (final o))
       = (count_events is_send (events w)
          + match c with Some _ => k | None => O end)%nat
    /\ count_events is_status_call (events (final o))
       = (count_events is_status_call (events w)
          + match c with Some _ => 2 * k | None => O end)%nat.
Proof.
  revert w. induction fuel as [|fuel IH]; intros w; [discriminate|].
  cbn [Backup_Run]. rewrite Backup_Step_run. cbv zeta.
  set (q := sqlite3_backup_step (Backup_sb b) npage).
  destruct (_ || _).
  - destruct (Backup_Run_progress_events b sleepNs c (after_call q w))
      as (w2 & l & -> & Hc & Hev & Hl1 & Hl2 & Hl3 & Hl4).
    intros HRun.
    apply IH in HRun as (k & Hk & Hconns & Hsteps & Hsleeps & Hsends & Hstat).
    exists (S k). split; [lia|]. split; [rewrite Hconns, Hc; reflexivity|].
    rewrite Hsteps, Hsleeps, Hsends, Hstat, Hev, events_after_call.
    rewrite !count_events_app, Hl1, Hl2, Hl3, Hl4. cbn.
    destruct c; repeat split; lia.
  - intros [= <-]. exists O. split; [lia|].
    assert (Hext : extends_log is_error_query (after_call q w)
                     (final (Backup_Run_return b (after_call q w)))).
    { destruct (Backup_dst b) as [l|] eqn:Hdst.
      - destruct (Backup_Run_return_extends b l (after_call q w) Hdst)
          as (r & w' & -> & Hext). exact Hext.
      - unfold Backup_Run_return. rewrite Hdst. apply extends_log_refl. }
    assert (Hno : forall Q : event -> bool,
              (forall ev : event, is_error_query ev = true -> Q ev = false) ->
              count_events Q (events (final (Backup_Run_return b (after_call q w))))
              = count_events Q (events w ++ [Called q])).
    { intros Q HQ. apply (extends_log_count _ _ _ _ HQ Hext). }
    split; [destruct Hext as [-> _]; reflexivity|].
    rewrite !Hno, !count_events_app; cbn;
      try (intros [R x| |]; [destruct x|..]; cbn; congruence).
    destruct c; repeat split; lia.
Qed.




End Backups.

(** ** What leaves the connections alone *)

Section Untouched.
Context {E : Type} `{!Engine E}.

Implicit Types (w : World E) (s : Stmt) (b : Backup) (c : option loc).

Lemma extends_log_keeps (P : event -> bool) w (w' : World E) :
  (forall ev : event, P ev = true -> is_close_call ev = false) ->
  extends_log P w w' -> keeps_connections w w'.
Proof.
  intros HP Hext. split; [apply Hext|].
  apply (extends_log_count _ _ _ _ HP Hext).
Qed.

Lemma keeps_connections_trans w (w1 w2 : World E) :
  keeps_connections w w1 -> keeps_connections w1 w2 -> keeps_connections w w2.
Proof. intros [H1 H2] [H3 H4]. split; congruence. Qed.

Lemma keeps_connections_call {R : Type} (k : call R) w :
  is_close_call (Called k) = false -> keeps_connections w (after_call k w).
Proof.
  intros Hk. split; [reflexivity|].
  rewrite events_after_call, count_events_app. cbn [count_events].
  rewrite Hk. lia.
Qed.

Lemma errmsg_not_close (ev : event) :
  is_errmsg_call ev = true -> is_close_call ev = false.
Proof. destruct ev as [R k| |]; [destruct k|..]; cbn; congruence. Qed.

Lemma Exec_call_not_close (ev : event) :
  is_Exec_call ev = true -> is_close_call ev = false.
Proof. destruct ev as [R k| |]; [destruct k|..]; cbn; congruence. Qed.

Lemma Conn_error_keeps c (rv : Z) w (e : os_Error) (w' : World E) :
  Conn_error c rv w = Ret e w' -> keeps_connections w w'.
Proof.
  intros He.
  destruct (Conn_error_extends c rv w) as (e0 & w0 & He0 & Hext & _).
  rewrite He in He0. injection He0 as _ <-.
  exact (extends_log_keeps _ _ _ errmsg_not_close Hext).
Qed.

(** [Stmt.Next] in terms of the step's status. *)
Lemma Stmt_Next_run s w :
  let k := sqlite3_step (Stmt_stmt s) in
  Stmt_Next s w
  = if answer k w =? Row then Ret (true, s) (after_call k w)
    else if negb (answer k w =? Done)
         then bind (Conn_error (Stmt_c s) (answer k w))
                   (fun e => ret (false, Stmt_set_err s e)) (after_call k w)
         else Ret (false, s) (after_call k w).
Proof.
  cbv zeta. unfold Stmt_Next. rewrite bind_C.
  destruct (_ =? Row); [reflexivity|]. destruct (negb _); reflexivity.
Qed.

Lemma Stmt_Next_run_keeps s w (r : bool) (s' : Stmt) (w' : World E) :
  Stmt_Next s w = Ret (r, s') w' -> keeps_connections w w'.
Proof.
  rewrite Stmt_Next_run. cbv zeta.
  set (k := sqlite3_step (Stmt_stmt s)).
  assert (Hk : keeps_connections w (after_call k w))
    by (apply keeps_connections_call; reflexivity).
  destruct (_ =? Row); [intros [= _ _ <-]; exact Hk|].
  destruct (negb _); [|intros [= _ _ <-]; exact Hk].
  unfold bind.
  destruct (Conn_error _ _ _) as [e w1|w1] eqn:He; [|discriminate].
  intros [= _ _ <-].
  eapply keeps_connections_trans; [exact Hk|].
  eapply Conn_error_keeps, He.
Qed.

(** X15. [Stmt.Next] returns true exactly when the step reports a row,
    and then leaves the statement as it was; in every case it calls the
    step once, changes no field of the statement other than the recorded
    error, so [SQL] returns what it did, and leaves the connections
    alone. *)
Theorem Stmt_Next_frame s w (r : bool) (s' : Stmt) (w' : World E) :
  Stmt_Next s w = Ret (r, s') w' ->
  (r = true <-> answer (sqlite3_step (Stmt_stmt s)) w = Row)
  /\ (r = true -> s' = s)
  /\ s' = Stmt_set_err s (Stmt_Error s')
  /\ Stmt_SQL s' = Stmt_SQL s
  /\ keeps_connections w w'
  /\ count_events is_step_call (events w')
     = S (count_events is_step_call (events w)).
Proof.
  rewrite Stmt_Next_run. cbv zeta.
  set (k := sqlite3_step (Stmt_stmt s)).
  assert (Hk : keeps_connections w (after_call k w))
    by (apply keeps_connections_call; reflexivity).
  assert (Hcount : count_events is_step_call (events (after_call k w))
                   = S (count_events is_step_call (events w))).
  { rewrite events_after_call, count_events_app. cbn. lia. }
  assert (Heta : s = Stmt_set_err s (Stmt_Error s)) by (destruct s; reflexivity).
  destruct (Z.eqb_spec (answer k w) Row) as [HRow|HRow].
  - intros [= <- <- <-]. repeat split; auto; apply Hk.
  - destruct (negb _).
    + destruct (Conn_error_extends (Stmt_c s) (answer k w) (after_call k w))
        as (e & w1 & He & Hext & _).
      unfold bind. rewrite He. intros [= <- <- <-].
      split; [split; [discriminate|contradiction]|].
      split; [discriminate|]. split; [reflexivity|]. split; [reflexivity|].
      split.
      * eapply keeps_connections_trans; [exact Hk|].
        exact (extends_log_keeps _ _ _ errmsg_not_close Hext).
      * rewrite <- Hcount. apply (extends_log_count is_errmsg_call); [|exact Hext].
        intros [R x| |]; [destruct x|..]; cbn; congruence.
    + intros [= <- <- <-].
      split; [split; [discriminate|contradiction]|].
      split; [discriminate|]. repeat split; auto; apply Hk.
Qed.

(** X16. Only [Conn.Close] closes: [Conn.Exec], [Stmt.Exec], [Stmt.Next],
    [Stmt.Reset], [Stmt.Finalize], [Backup.Step] and [Backup.Close] leave
    every connection's handle as it was and never call [sqlite3_close]. *)
Theorem only_Close_closes :
  (forall c (cmd : string) (args : list value) w (e : os_Error) (w' : World E),
     Conn_Exec c cmd args w = Ret e w' -> keeps_connections w w')
  /\ (forall s (args : list value) w (r : os_Error * Stmt) (w' : World E),
       Stmt_Exec s args w = Ret r w' -> keeps_connections w w')
  /\ (forall s w (r : bool * Stmt) (w' : World E),
       Stmt_Next s w = Ret r w' -> keeps_connections w w')
  /\ (forall s w (e : os_Error) (w' : World E),
       Stmt_Reset s w = Ret e w' -> keeps_connections w w')
  /\ (forall s w (e : os_Error) (w' : World E),
       Stmt_Finalize s w = Ret e w' -> keeps_connections w w')
  /\ (forall b (npage : Z) w (e : os_Error) (w' : World E),
       Backup_Step b npage w = Ret e w' -> keeps_connections w w')
  /\ (forall b w (r : os_Error * Backup) (w' : World E),
       Backup_Close b w = Ret r w' -> keeps_connections w w').
Proof.
  assert (HFin : forall s w (e : os_Error) (w' : World E),
            Stmt_Finalize s w = Ret e w' -> keeps_connections w w').
  { intros s w e w' HF.
    destruct (Stmt_Finalize_extends s w) as (e0 & w0 & tail & HF0 & Hc & Hev & Htail & _).
    rewrite HF in HF0. injection HF0 as _ <-. split; [exact Hc|].
    rewrite Hev, count_events_app. cbn [count_events is_close_call].
    rewrite (count_events_none _ _ tail errmsg_not_close Htail). lia. }
  assert (HExec : forall s (args : list value) w (r : os_Error * Stmt)
                    (w' : World E),
            Stmt_Exec s args w = Ret r w' -> keeps_connections w w').
  { intros s args w r w' HE.
    destruct (Stmt_Exec_extends s args w) as (e0 & w0 & HE0 & Hext).
    rewrite HE in HE0. injection HE0 as _ <-.
    exact (extends_log_keeps _ _ _ Exec_call_not_close Hext). }
  split; [|split; [exact HExec|split; [|split; [|split; [exact HFin|split]]]]].
  - intros c cmd args w e w' HX.
    assert (Hprep : forall ev : event,
              is_Prepare_call ev = true -> is_close_call ev = false).
    { intros [R k| |]; [destruct k|..]; cbn; congruence. }
    destruct (Conn_Prepare_cases c cmd w)
      as [(e1 & w1 & HP & Hext & _)|(s & w1 & h & HP & Hext & _)].
    + assert (HX' : Conn_Exec c cmd args w = Ret (Some e1) w1).
      { unfold Conn_Exec. rewrite (bind_run _ _ _ _ _ HP). reflexivity. }
      rewrite HX in HX'. injection HX' as _ ->.
      exact (extends_log_keeps _ _ _ Hprep Hext).
    + destruct (Conn_Exec_prepared_shape c cmd args w s w1 HP)
        as (e2 & r & w2 & w0 & l & tail & _ & HX' & Hc & Hev & Hl & Htail & _).
      rewrite HX in HX'. injection HX' as _ <-.
      eapply keeps_connections_trans;
        [exact (extends_log_keeps _ _ _ Hprep Hext)|].
      split; [exact Hc|].
      rewrite Hev, !count_events_app. cbn [count_events is_close_call].
      rewrite (count_events_none _ _ tail errmsg_not_close Htail).
      rewrite (count_events_none
                 (fun ev => is_Exec_call ev || is_step_call ev)
                 is_close_call l); [lia| |exact Hl].
      intros [R k| |]; [destruct k|..]; cbn; congruence.
  - intros s w [r s'] w' HN.
    apply (Stmt_Next_run_keeps s w r s' w' HN).
  - intros s w e w'. unfold Stmt_Reset. rewrite bind_C. intros [= _ <-].
    apply keeps_connections_call. reflexivity.
  - intros b npage w e w'. rewrite Backup_Step_run. intros [= _ <-].
    apply keeps_connections_call. reflexivity.
  - intros b w r w'. unfold Backup_Close.
    destruct (Backup_sb b) as [h|].
    + rewrite bind_C. intros [= _ <-]. apply keeps_connections_call. reflexivity.
    + intros [= _ <-]. split; reflexivity.
Qed.

End Untouched.

(** ** The further properties on scripted runs *)

(** X4 on an insert with one argument: one finalize call. *)
Lemma Conn_Exec_finalizes_once_witness :
  let w := world0 (script [0; 0; 0; 101; 0] "" 0 1) in
  let o := Conn_Exec (Some 0%N) "insert into t values (?)" [VInt 1] w in
  let p := Conn_Prepare (Some 0%N) "insert into t values (?)" w in
  result o = Some None
  /\ result p
     = Some (Some {| Stmt_c := Some 0%N; Stmt_stmt := Some 1%N;
                     Stmt_err := None; Stmt_t0 := 0;
                     Stmt_sql := "insert into t values (?)";
                     Stmt_args := "" |}, None)
  /\ count_events is_finalize_call (events (final o)) = 1%nat.
Proof.
  intros w o p.
  assert (Ho : result o = Some None) by reflexivity.
  assert (Hp : result p
               = Some (Some {| Stmt_c := Some 0%N; Stmt_stmt := Some 1%N;
                               Stmt_err := None; Stmt_t0 := 0;
                               Stmt_sql := "insert into t values (?)";
                               Stmt_args := "" |}, None)) by reflexivity.
  split; [exact Ho|]. split; [exact Hp|].
  exact (proj1 (proj1 (Conn_Exec_finalizes_once _ _ _ w None (final o)
                         (Ret_result_final o _ Ho))
                  _ (final p) (Ret_result_final p _ Hp))).
Defined.

(** X5 on the open connection at location 0. *)
Lemma Conn_Close_twice_witness :
  let w := world0 (script [0] "" 0 0) in
  (Conn_handle (Some 0%N) w = Some 7%N
   /\ answer (sqlite3_close (Some 7%N)) w = 0)
  /\ exists w1 : World Script,
       Conn_Close (Some 0%N) w = Ret None w1
       /\ Conn_handle (Some 0%N) w1 = None
       /\ (forall c' : option loc,
             c' <> Some 0%N -> Conn_handle c' w1 = Conn_handle c' w)
       /\ events w1 = events w ++ [Called (sqlite3_close (Some 7%N))]
       /\ Conn_Close (Some 0%N) w1
          = Ret (Some (NewError "nil sqlite database")) w1
       /\ forall cmd : string,
            Conn_Prepare (Some 0%N) cmd w1
            = Ret (None, Some (NewError "nil sqlite database")) w1.
Proof.
  intros w. split; [split; reflexivity|].
  exact (Conn_Close_twice (Some 0%N) 7%N w eq_refl eq_refl).
Defined.

(** X6 on a close that the engine refuses as busy. *)
Lemma Conn_Close_failure_witness :
  let w := world0 (script [5] "unable to close due to unfinalized statements"
                     5 0) in
  (Conn_handle (Some 0%N) w = Some 7%N
   /\ answer (sqlite3_close (Some 7%N)) w <> 0)
  /\ exists (e : error) (w1 : World Script),
       Conn_Close (Some 0%N) w = Ret (Some e) w1
       /\ Conn_error (Some 0%N) (answer (sqlite3_close (Some 7%N)) w)
            (after_call (sqlite3_close (Some 7%N)) w) = Ret (Some e) w1
       /\ conns w1 = conns w
       /\ Conn_handle (Some 0%N) w1 = Some 7%N.
Proof.
  intros w.
  assert (Hnz : answer (sqlite3_close (Some 7%N)) w <> 0)
    by (vm_compute; discriminate).
  split; [split; [reflexivity|exact Hnz]|].
  exact (Conn_Close_failure (Some 0%N) 7%N w eq_refl Hnz).
Defined.

(** X7 on [stmt0] after its connection is closed: the step fails with
    status 1 and [Next] records the nil-database error. *)
Lemma Stmt_after_Close_witness :
  let w := world0 (script [0; 1] "" 0 0) in
  let w1 := final (Conn_Close (Stmt_c stmt0) w) in
  let k := sqlite3_step (Stmt_stmt stmt0) in
  (Conn_Close (Stmt_c stmt0) w = Ret None w1
   /\ answer k w1 <> Row /\ answer k w1 <> Done)
  /\ Stmt_Next stmt0 w1
     = Ret (false, Stmt_set_err stmt0 (Some (NewError "nil sqlite database")))
           (after_call k w1).
Proof.
  intros w w1 k.
  assert (HC : Conn_Close (Stmt_c stmt0) w = Ret None w1) by by_running.
  assert (HRow : answer k w1 <> Row) by (vm_compute; discriminate).
  assert (HDone : answer k w1 <> Done) by (vm_compute; discriminate).
  split; [repeat split; assumption|].
  exact (proj1 (Stmt_after_Close stmt0 [] w w1 w1 HC eq_refl) HRow HDone).
Defined.

(** X9 on two bytes, and on the empty sequence, which the scripted engine
    gives back as a NULL pointer of length 0. *)
Lemma blob_round_trip_witness :
  let row := fun v : list Byte.byte =>
    world0 {| script_status := []; script_errmsg := ""; script_errcode := 0;
              script_nparams := 1; script_columns := [v] |} in
  Stmt_Scan (F := Z) stmt0 [TBytes] (row [Byte.x01; Byte.xff])
  = Ret (None, [SBytes [Byte.x01; Byte.xff]])
        (after_call (sqlite3_column_blob (Some 1%N) 0)
           (after_call (sqlite3_column_bytes (Some 1%N) 0)
              (after_call (sqlite3_column_count (Some 1%N))
                 (row [Byte.x01; Byte.xff]))))
  /\ Stmt_Scan (F := Z) stmt0 [TBytes] (row [])
     = Ret (None, [SBytes []])
           (after_call (sqlite3_column_blob (Some 1%N) 0)
              (after_call (sqlite3_column_bytes (Some 1%N) 0)
                 (after_call (sqlite3_column_count (Some 1%N)) (row [])))).
Proof.
  intros row. split.
  - exact (proj2 (blob_round_trip (F := Z) stmt0 stmt0 [Byte.x01; Byte.xff]
                    (row []) (row [Byte.x01; Byte.xff]))
             eq_refl eq_refl eq_refl).
  - exact (proj2 (blob_round_trip (F := Z) stmt0 stmt0 [] (row []) (row []))
             eq_refl eq_refl eq_refl).
Defined.

(** X10 on both booleans. *)
Lemma bool_round_trip_witness :
  let row := fun v : list Byte.byte =>
    world0 {| script_status := []; script_errmsg := ""; script_errcode := 0;
              script_nparams := 1; script_columns := [v] |} in
  result (Stmt_Scan (F := Z) stmt0 [TBool] (row [Byte.x31]))
  = Some (None, [SBool true])
  /\ result (Stmt_Scan (F := Z) stmt0 [TBool] (row [Byte.x30]))
     = Some (None, [SBool false]).
Proof.
  intros row. split.
  - refine (f_equal result
              (proj2 (bool_round_trip (F := Z) stmt0 stmt0 true []
                        (row []) (row [Byte.x31])) _ _ _)); reflexivity.
  - refine (f_equal result
              (proj2 (bool_round_trip (F := Z) stmt0 stmt0 false []
                        (row []) (row [Byte.x30])) _ _ _)); reflexivity.
Defined.

(** X11 on a two-letter string. *)
Lemma string_round_trip_witness :
  let row :=
    world0 {| script_status := []; script_errmsg := ""; script_errcode := 0;
              script_nparams := 1;
              script_columns := [[Byte.x68; Byte.x69]] |} in
  result (Stmt_Scan (F := Z) stmt0 [TString] row) = Some (None, [SString "hi"]).
Proof.
  intros row.
  refine (f_equal result
            (proj2 (string_round_trip (F := Z) stmt0 stmt0 "hi" [] row row)
               _ _ _)); [reflexivity|reflexivity|intros _; reflexivity].
Defined.

(** X12 on the backup that is busy once and then done. *)
Lemma Backup_Run_counts_witness :
  let w := world0 (script [0; 5; 101] "not an error" 0 0) in
  exists o : outcome Script os_Error,
    Backup_Run 5 backup0 10 1000 (Some 4%N) w = Some o
    /\ exists k : nat,
         (k < 5)%nat
         /\ conns (final o) = conns w
         /\ count_events is_backup_step_call (events (final o))
            = (count_events is_backup_step_call (events w) + S k)%nat
         /\ count_events is_sleep (events (final o))
            = (count_events is_sleep (events w) + k)%nat
         /\ count_events is_send (events (final o))
            = (count_events is_send (events w) + k)%nat
         /\ count_events is_status_call (events (final o))
            = (count_events is_status_call (events w) + 2 * k)%nat.
Proof.
  intros w.
  destruct (Backup_Run 5 backup0 10 1000 (Some 4%N) w) as [o|] eqn:HRun.
  - exists o. split; [reflexivity|].
    exact (Backup_Run_counts backup0 10 1000 (Some 4%N) 5 w o HRun).
  - vm_compute in HRun. discriminate.
Defined.



(** X15 on a step that finds a row. *)
Lemma Stmt_Next_frame_witness :
  let w := world0 (script [100] "" 0 0) in
  let o := Stmt_Next stmt0 w in
  result o = Some (true, stmt0)
  /\ count_events is_step_call (events (final o))
     = S (count_events is_step_call (events w)).
Proof.
  intros w o.
  assert (Ho : result o = Some (true, stmt0)) by reflexivity.
  split; [exact Ho|].
  destruct (Stmt_Next_frame stmt0 w true stmt0 (final o)
              (Ret_result_final o _ Ho))
    as (_ & _ & _ & _ & _ & Hcount).
  exact Hcount.
Defined.

(** X16 on a reset. *)
Lemma only_Close_closes_witness :
  let w := world0 (script [0] "" 0 0) in
  Stmt_Reset stmt0 w = Ret None (after_call (sqlite3_reset (Some 1%N)) w)
  /\ keeps_connections w (after_call (sqlite3_reset (Some 1%N)) w).
Proof.
  intros w.
  assert (HR : Stmt_Reset stmt0 w
               = Ret None (after_call (sqlite3_reset (Some 1%N)) w))
    by reflexivity.
  split; [exact HR|].
  destruct (only_Close_closes (E := Script)) as (_ & _ & _ & HReset & _).
  exact (HReset stmt0 w None _ HR).
Defined.
